(** * Rate limiter and conversation store of the edge agent service

    Shallow embedding of [RateLimitService] (src/services/rateLimit.ts)
    and [DatabaseService] (src/services/database.ts).  The Cloudflare KV
    namespace is a finite map from keys to entries with an expiry; the D1
    table [conversations] is the list of its rows in insertion (rowid)
    order.  Every backing-store call may fail: each call site receives a
    fault flag saying whether that statement throws, so the effect of a
    failure at any point can be stated.  [Date.now()], [generateId()] and
    [getCurrentTimestamp()] are explicit arguments. *)

From Stdlib Require Import ZArith.
From stdpp Require Import base gmap strings list sorting.

(** A JavaScript computation that either returns or throws. *)
Inductive result (A : Type) : Type :=
| Ok (a : A)
| Throw (msg : string).
Arguments Ok {A} a.
Arguments Throw {A} msg.

Definition rbind {A B} (m : result A) (k : A -> result B) : result B :=
  match m with
  | Ok a => k a
  | Throw e => Throw e
  end.

Declare Scope js_scope.
Notation "'let!' x := m 'in' k" := (rbind m (fun x => k))
  (at level 200, x name, m at level 100, k at level 200) : js_scope.
Open Scope js_scope.

Module RateLimit.

Local Open Scope Z_scope.

(** What [JSON.parse] makes of a value stored under a rate-limit key:
    the object [{count, window}] written by [checkRateLimit], some other
    JSON object (its [window] field is not a number), or text on which
    [JSON.parse] or the field access throws. *)
Inductive counter_json :=
| CounterRec (count window : Z)
| ForeignObject
| Unparsable.

(** A KV entry: its value and the epoch-millisecond time it expires. *)
Record kv_entry := mk_kv_entry { kv_value : counter_json; kv_expires_at : Z }.

Abbreviation kv_store := (gmap string kv_entry).

Record RateLimitInfo := mk_info { remaining : Z; resetTime : Z; blocked : bool }.

(** Whether [kv.get] and [kv.put] throw during one call. *)
Record kv_faults := mk_kv_faults { get_fails : bool; put_fails : bool }.

Definition no_kv_faults := mk_kv_faults false false.

(** [kv.get(key)]: an expired entry reads as [null]. *)
Definition kv_get (f : kv_faults) (now : Z) (key : string) (kv : kv_store)
  : result (option counter_json) :=
  if get_fails f then Throw "KV get failed"
  else Ok (match kv !! key with
           | Some e => if now <? kv_expires_at e then Some (kv_value e) else None
           | None => None
           end).

(** [kv.put(key, value, { expirationTtl })], the TTL in seconds. *)
Definition kv_put (f : kv_faults) (now : Z) (key : string) (v : counter_json)
    (expirationTtl : Z) (kv : kv_store) : result kv_store :=
  if put_fails f then Throw "KV put failed"
  else Ok (<[key := mk_kv_entry v (now + expirationTtl * 1000)]> kv).

(** [JSON.parse(current) as { count; window }], keeping the two fields
    when they are present. *)
Definition JSON_parse_counter (v : counter_json) : result (option (Z * Z)) :=
  match v with
  | CounterRec c w => Ok (Some (c, w))
  | ForeignObject => Ok None
  | Unparsable => Throw "SyntaxError: JSON.parse"
  end.

Definition rate_limit_key (identifier : string) : string :=
  String.append "rate_limit:" identifier.

(** [Math.floor(now / 60000) * 60000]; [Z.div] rounds down. *)
Definition window_start (now : Z) : Z := now / 60000 * 60000.

(** Lines 20-28 (and 71-79): the count of the current window. *)
Definition read_count (f : kv_faults) (now : Z) (key : string) (kv : kv_store)
    (windowStart : Z) : result Z :=
  let! current := kv_get f now key kv in
  match current with
  | None => Ok 0
  | Some s =>
      let! parsed := JSON_parse_counter s in
      Ok (match parsed with
          | Some (c, w) => if w =? windowStart then c else 0
          | None => 0
          end)
  end.

(** The [try] block of [checkRateLimit]. *)
Definition checkRateLimit_try (limitPerMinute : Z) (f : kv_faults) (now : Z)
    (identifier : string) (kv : kv_store) : result (RateLimitInfo * kv_store) :=
  let key := rate_limit_key identifier in
  let windowStart := window_start now in
  let windowEnd := windowStart + 60000 in
  let! count := read_count f now key kv windowStart in
  let remaining := Z.max 0 (limitPerMinute - count) in
  let blocked := remaining =? 0 in
  let! kv' := (if negb blocked
               then kv_put f now key (CounterRec (count + 1) windowStart) 120 kv
               else Ok kv) in
  Ok (mk_info (if blocked then 0 else remaining - 1) windowEnd blocked, kv').

(** [checkRateLimit]: the [catch] fails open; nothing was written then. *)
Definition checkRateLimit (limitPerMinute : Z) (f : kv_faults) (now : Z)
    (identifier : string) (kv : kv_store) : RateLimitInfo * kv_store :=
  match checkRateLimit_try limitPerMinute f now identifier kv with
  | Ok p => p
  | Throw _ => (mk_info (limitPerMinute - 1) (window_start now + 60000) false, kv)
  end.

Definition getRateLimitStatus_try (limitPerMinute : Z) (f : kv_faults) (now : Z)
    (identifier : string) (kv : kv_store) : result RateLimitInfo :=
  let key := rate_limit_key identifier in
  let windowStart := window_start now in
  let windowEnd := windowStart + 60000 in
  let! count := read_count f now key kv windowStart in
  let remaining := Z.max 0 (limitPerMinute - count) in
  Ok (mk_info remaining windowEnd (remaining =? 0)).

(** [getRateLimitStatus]: read-only, so it returns no new store. *)
Definition getRateLimitStatus (limitPerMinute : Z) (f : kv_faults) (now : Z)
    (identifier : string) (kv : kv_store) : RateLimitInfo :=
  match getRateLimitStatus_try limitPerMinute f now identifier kv with
  | Ok r => r
  | Throw _ => mk_info limitPerMinute (window_start now + 60000) false
  end.

(** The spec's reading of "the stored count for the current window":
    an absent or expired record, a record of another window or a record
    without the fields counts 0; a record of the current window counts
    its [count]. *)
Inductive window_count (now : Z) (key : string) (kv : kv_store) : Z -> Prop :=
| wc_absent :
    kv !! key = None -> window_count now key kv 0
| wc_expired e :
    kv !! key = Some e -> kv_expires_at e <= now -> window_count now key kv 0
| wc_stale e c w :
    kv !! key = Some e -> now < kv_expires_at e ->
    kv_value e = CounterRec c w -> w <> window_start now ->
    window_count now key kv 0
| wc_foreign e :
    kv !! key = Some e -> now < kv_expires_at e ->
    kv_value e = ForeignObject -> window_count now key kv 0
| wc_current e c :
    kv !! key = Some e -> now < kv_expires_at e ->
    kv_value e = CounterRec c (window_start now) -> window_count now key kv c.

End RateLimit.

Module Conversations.

Inductive role := User | Assistant.

Global Instance role_eq_dec : EqDecision role.
Proof. solve_decision. Defined.

(** A row of the D1 table [conversations] (schema.sql); [created_at] is
    never read by the service and is left out. *)
Record row := mk_row {
  row_id : string;
  row_conversation_id : string;
  row_role : role;
  row_content : string;
  row_timestamp : string;
  row_metadata : option string
}.

Global Instance row_eq_dec : EqDecision row.
Proof. solve_decision. Defined.

(** The table, its rows in insertion (rowid) order. *)
Abbreviation table := (list row).

(** [Stats] of [getConversationStats]. *)
Record Stats := mk_stats { totalConversations : nat; totalMessages : nat }.

(** SQLite's [ORDER BY timestamp]: TEXT compared lexically.  Rows with
    equal timestamps come in an order SQLite does not specify; here the
    merge sort decides it. *)
Definition ts_le (r1 r2 : row) : Prop := String.le (row_timestamp r1) (row_timestamp r2).
Definition ts_ge (r1 r2 : row) : Prop := ts_le r2 r1.

Global Instance ts_le_dec : RelDecision ts_le.
Proof. intros r1 r2. unfold ts_le. apply _. Defined.
Global Instance ts_ge_dec : RelDecision ts_ge.
Proof. intros r1 r2. unfold ts_ge. apply _. Defined.

Definition order_by_timestamp_asc (rows : list row) : list row := merge_sort ts_le rows.
Definition order_by_timestamp_desc (rows : list row) : list row := merge_sort ts_ge rows.

(** [LIMIT n]: SQLite reads a negative limit as no limit. *)
Definition sql_limit {A} (n : Z) (l : list A) : list A :=
  if (n <? 0)%Z then l else take (Z.to_nat n) l.

(** [WHERE conversation_id = ?]. *)
Definition where_conversation (c : string) (tbl : table) : list row :=
  filter (fun r => row_conversation_id r = c) tbl.

Section Database.

(** [Record<string, unknown>] values and the two JSON functions the
    service calls on them. *)
Variable json : Type.
Variable JSON_stringify : json -> string.
Variable JSON_parse : string -> option json.

Record ConversationMessage := mk_message {
  id : string;
  conversationId : string;
  msg_role : role;
  content : string;
  timestamp : string;
  metadata : option json
}.

(** [INSERT INTO conversations ...]: the statement throws when D1 fails
    or when [id] is already present ([id] is the PRIMARY KEY). *)
Definition sql_insert (fails : bool) (r : row) (tbl : table) : result table :=
  if fails then Throw "D1_ERROR"
  else if bool_decide (row_id r ∈ map row_id tbl)
       then Throw "UNIQUE constraint failed: conversations.id"
       else Ok (tbl ++ [r]).

(** The [DELETE] of [cleanupConversation]: every row of the conversation
    whose [id] is not among the [n] first in descending timestamp order. *)
Definition sql_delete_all_but_recent (fails : bool) (c : string) (n : Z) (tbl : table)
  : result table :=
  if fails then Throw "D1_ERROR"
  else
    let keep := map row_id (sql_limit n (order_by_timestamp_desc (where_conversation c tbl))) in
    Ok (filter (fun r => row_conversation_id r <> c \/ row_id r ∈ keep) tbl).

(** [DELETE FROM conversations WHERE conversation_id = ?]. *)
Definition sql_delete_conversation (fails : bool) (c : string) (tbl : table) : result table :=
  if fails then Throw "D1_ERROR"
  else Ok (filter (fun r => row_conversation_id r <> c) tbl).

(** The [SELECT ... ORDER BY timestamp ASC LIMIT ?] of the history. *)
Definition sql_select_history (fails : bool) (c : string) (n : Z) (tbl : table)
  : result (list row) :=
  if fails then Throw "D1_ERROR"
  else Ok (sql_limit n (order_by_timestamp_asc (where_conversation c tbl))).

(** [cleanupConversation]: a failed [DELETE] changes nothing and is
    swallowed. *)
Definition cleanupConversation (maxHistoryLength : Z) (fails : bool) (c : string)
    (tbl : table) : table :=
  match sql_delete_all_but_recent fails c maxHistoryLength tbl with
  | Ok tbl' => tbl'
  | Throw _ => tbl
  end.

(** [storeMessage]: [generateId()] is [mid], [getCurrentTimestamp()] is
    [ts]; the [catch] rethrows a fixed error. *)
Definition storeMessage (maxHistoryLength : Z) (insert_fails cleanup_fails : bool)
    (mid ts : string) (c : string) (rl : role) (body : string) (md : option json)
    (tbl : table) : result ConversationMessage * table :=
  let message := mk_message mid c rl body ts md in
  match sql_insert insert_fails
          (mk_row mid c rl body ts (option_map JSON_stringify md)) tbl with
  | Ok tbl1 => (Ok message, cleanupConversation maxHistoryLength cleanup_fails c tbl1)
  | Throw _ => (Throw "Failed to store conversation message", tbl)
  end.

(** The [results.map] callback: [if (row.metadata)] skips [null] and the
    empty string; [JSON.parse] throws on anything else that is not JSON. *)
Definition row_to_message (r : row) : result ConversationMessage :=
  let message := mk_message (row_id r) (row_conversation_id r) (row_role r)
                            (row_content r) (row_timestamp r) None in
  match row_metadata r with
  | Some s =>
      if String.eqb s "" then Ok message
      else match JSON_parse s with
           | Some m => Ok (mk_message (row_id r) (row_conversation_id r) (row_role r)
                                      (row_content r) (row_timestamp r) (Some m))
           | None => Throw "SyntaxError: JSON.parse"
           end
  | None => Ok message
  end.

(** [Array.prototype.map] with a callback that may throw. *)
Fixpoint map_result {A B} (f : A -> result B) (l : list A) : result (list B) :=
  match l with
  | [] => Ok []
  | x :: l' => let! y := f x in let! ys := map_result f l' in Ok (y :: ys)
  end.

(** [getConversationHistory]: any throw yields [[]]. *)
Definition getConversationHistory (maxHistoryLength : Z) (select_fails : bool)
    (c : string) (tbl : table) : list ConversationMessage :=
  match (let! results := sql_select_history select_fails c maxHistoryLength tbl in
         map_result row_to_message results) with
  | Ok messages => messages
  | Throw _ => []
  end.

End Database.

Arguments mk_message {json}.
Arguments id {json}.
Arguments conversationId {json}.
Arguments msg_role {json}.
Arguments content {json}.
Arguments timestamp {json}.
Arguments metadata {json}.
Arguments storeMessage {json}.
Arguments row_to_message {json}.
Arguments getConversationHistory {json}.

(** [deleteConversation]: the error is rethrown. *)
Definition deleteConversation (delete_fails : bool) (c : string) (tbl : table)
  : result unit * table :=
  match sql_delete_conversation delete_fails c tbl with
  | Ok tbl' => (Ok tt, tbl')
  | Throw _ => (Throw "Failed to delete conversation", tbl)
  end.

(** [getConversationStats]: [COUNT(DISTINCT conversation_id)] and
    [COUNT( * )], [{0, 0}] if either query throws. *)
Definition getConversationStats (count_distinct_fails count_all_fails : bool)
    (tbl : table) : Stats :=
  if count_distinct_fails || count_all_fails then mk_stats 0 0
  else mk_stats (length (remove_dups (map row_conversation_id tbl))) (length tbl).

End Conversations.

(** Concrete inputs: a metadata JSON in which only the text ["{}"] is
    valid (enough to tell valid from invalid metadata text), and rows of
    conversation ["c1"] with ISO-8601 timestamps one second apart. *)
Module Fixtures.

Import Conversations.

Definition toy_stringify (_ : unit) : string := "{}".
Definition toy_parse (s : string) : option unit :=
  if String.eqb s "{}" then Some tt else None.

Definition ts1 : string := "2024-01-01T00:00:01.000Z".
Definition ts2 : string := "2024-01-01T00:00:02.000Z".
Definition ts3 : string := "2024-01-01T00:00:03.000Z".
Definition ts4 : string := "2024-01-01T00:00:04.000Z".
Definition ts5 : string := "2024-01-01T00:00:05.000Z".

Definition user_row (mid ts body : string) (md : option string) : row :=
  mk_row mid "c1" User body ts md.

(** Appending to ["c1"] with every statement succeeding. *)
Definition append (cap : Z) (mid ts body : string) (tbl : table) : table :=
  snd (storeMessage toy_stringify cap false false mid ts "c1" User body None tbl).

End Fixtures.

(** The invariant of the rate limiter's store: every counter it holds
    lies between 0 and the limit; and a store holding one counter. *)
Module Invariants.
Import RateLimit.
Local Open Scope Z_scope.

Definition counters_within (limit : Z) (kv : kv_store) : Prop :=
  forall k e c w, kv !! k = Some e -> kv_value e = CounterRec c w -> 0 <= c <= limit.

Definition kv_u1_two : kv_store :=
  <[rate_limit_key "u1" := mk_kv_entry (CounterRec 2 600000) 720005]> ∅.

End Invariants.

(** String helpers of src/utils/helpers.ts and of the services.  A
    JavaScript string is a Rocq [string] with one byte per UTF-16 code
    unit, so these definitions cover strings whose code units are below
    256; among those, [String.prototype.trim] removes TAB, LF, VT, FF, CR,
    SPACE and NO-BREAK SPACE. *)
Module Helpers.

Import Stdlib.Strings.Ascii.

Definition is_js_space (a : Ascii.ascii) : bool :=
  match Ascii.nat_of_ascii a with
  | 9 | 10 | 11 | 12 | 13 | 32 | 160 => true
  | _ => false
  end.

(** Leading white space removed. *)
Fixpoint trim_start (s : string) : string :=
  match s with
  | EmptyString => EmptyString
  | String a s' => if is_js_space a then trim_start s' else s
  end.

(** Trailing white space removed: a character stays unless it is white
    space followed only by white space. *)
Fixpoint trim_end (s : string) : string :=
  match s with
  | EmptyString => EmptyString
  | String a s' =>
      let t := trim_end s' in
      if is_js_space a && String.eqb t "" then EmptyString else String a t
  end.

(** [String.prototype.trim]. *)
Definition trim (s : string) : string := trim_end (trim_start s).

(** [s.replace(/[...]/g, '')]: every code unit matching [p] removed. *)
Fixpoint remove_chars (p : Ascii.ascii -> bool) (s : string) : string :=
  match s with
  | EmptyString => EmptyString
  | String a s' => if p a then remove_chars p s' else String a (remove_chars p s')
  end.

Definition is_angle_bracket (a : Ascii.ascii) : bool :=
  Ascii.eqb a "<"%char || Ascii.eqb a ">"%char.

Definition is_quote (a : Ascii.ascii) : bool :=
  Ascii.eqb a "'"%char || Ascii.eqb a "034"%char.

(** [s.slice(0, n)]. *)
Definition slice0 (n : nat) (s : string) : string := String.substring 0 n s.

(** [sanitizeString] (helpers.ts, lines 67-73). *)
Definition sanitizeString (input : string) : string :=
  slice0 10000 (trim (remove_chars is_quote (remove_chars is_angle_bracket input))).

(** [a || b] on a [string | null | undefined] and a string. *)
Definition js_or (a : option string) (b : string) : string :=
  match a with
  | Some s => if String.eqb s "" then b else s
  | None => b
  end.

(** [s.split(',')]. *)
Fixpoint split_comma (s : string) : list string :=
  match s with
  | EmptyString => [EmptyString]
  | String a s' =>
      if Ascii.eqb a ","%char then EmptyString :: split_comma s'
      else match split_comma s' with
           | p :: ps => String a p :: ps
           | [] => [String a EmptyString]
           end
  end.

(** [s.split(',')[0]]. *)
Definition first_field (s : string) : string :=
  match split_comma s with
  | p :: _ => p
  | [] => EmptyString
  end.

(** [AgentHandler.getClientIdentifier] (agent.ts, lines 182-193): the
    [userId] of the request and the [CF-Connecting-IP] and
    [X-Forwarded-For] headers ([None] when absent). *)
Definition getClientIdentifier (userId cfConnectingIp xForwardedFor : option string) : string :=
  let ip := js_or cfConnectingIp (js_or (option_map first_field xForwardedFor) "unknown") in
  match userId with
  | Some u => if String.eqb u "" then String.append "ip:" ip else String.append "user:" u
  | None => String.append "ip:" ip
  end.

(** [AIService.extractKeywords] (ai.ts, lines 118-152) after the model
    call: [ai_response] is what [ai.run] gave as [response.response]
    ([None] for a missing field), or the error it threw. *)
Definition extractKeywords (ai_response : result (option string)) : list string :=
  match ai_response with
  | Throw _ => []
  | Ok None => []
  | Ok (Some r) =>
      if String.eqb r "" then []
      else take 10 (filter (fun k => k <> EmptyString) (map trim (split_comma r)))
  end.

(** The code units of a string. *)
Definition chars (s : string) : list Ascii.ascii := String.list_ascii_of_string s.

End Helpers.

(** Request bodies: what [request.json()] makes of a JSON text, and
    [validateAgentRequest] (src/utils/helpers.ts, lines 29-65).  A
    number keeps its source text: only its [typeof] is ever looked at.
    An object keeps its members in source order; [JSON.parse] keeps the
    last of duplicate keys, and an array has none of the fields read. *)
Module Requests.

Local Set Warnings "-register-all".

Inductive js_value :=
| JNull
| JBool (b : bool)
| JNumber (text : string)
| JString (s : string)
| JArray (items : list js_value)
| JObject (fields : list (string * js_value)).

Fixpoint lookup_last (k : string) (fields : list (string * js_value)) : option js_value :=
  match fields with
  | [] => None
  | (k', v) :: fields' =>
      match lookup_last k fields' with
      | Some w => Some w
      | None => if String.eqb k k' then Some v else None
      end
  end.

(** [body[k]], [None] for [undefined]. *)
Definition get_property (body : js_value) (k : string) : option js_value :=
  match body with
  | JObject fields => lookup_last k fields
  | _ => None
  end.

Definition typeof (v : js_value) : string :=
  match v with
  | JNull => "object"
  | JBool _ => "boolean"
  | JNumber _ => "number"
  | JString _ => "string"
  | JArray _ => "object"
  | JObject _ => "object"
  end.

Definition typeof_prop (p : option js_value) : string :=
  match p with
  | Some v => typeof v
  | None => "undefined"
  end.

Definition is_null (v : js_value) : bool :=
  match v with JNull => true | _ => false end.

Record validation := mk_validation { isValid : bool; errors : list string }.

(** [request.message.trim().length === 0], reached only for a string. *)
Definition trimmed_empty (p : option js_value) : bool :=
  match p with
  | Some (JString m) => Nat.eqb (String.length (Helpers.trim m)) 0
  | _ => false
  end.

Definition validateAgentRequest (body : js_value) : validation :=
  if negb (String.eqb (typeof body) "object") || is_null body
  then mk_validation false ["Request body must be a valid JSON object"]
  else
    let message := get_property body "message" in
    let conversationId := get_property body "conversationId" in
    let userId := get_property body "userId" in
    let metadata := get_property body "metadata" in
    let errors :=
      (if negb (String.eqb (typeof_prop message) "string") || trimmed_empty message
       then ["Message is required and must be a non-empty string"] else []) ++
      (if bool_decide (conversationId <> None) &&
          negb (String.eqb (typeof_prop conversationId) "string")
       then ["conversationId must be a string if provided"] else []) ++
      (if bool_decide (userId <> None) && negb (String.eqb (typeof_prop userId) "string")
       then ["userId must be a string if provided"] else []) ++
      (if bool_decide (metadata <> None) &&
          (negb (String.eqb (typeof_prop metadata) "object") ||
           match metadata with Some v => is_null v | None => false end)
       then ["metadata must be an object if provided"] else []) in
    mk_validation (Nat.eqb (length errors) 0) errors.

(** [agentRequest.k] read as a string: validation let only strings or
    [undefined] through. *)
Definition string_field (body : js_value) (k : string) : option string :=
  match get_property body k with
  | Some (JString s) => Some s
  | _ => None
  end.

End Requests.

(** [AIService.buildMessagesArray] and [generateResponse] (ai.ts,
    lines 11-83).  The model is a function from the prompt to what
    [ai.run] gives as [response.response] ([None] when missing), or the
    error it throws. *)
Module AI.

Import Conversations.
Import Stdlib.Strings.Ascii.

Record chat_message := mk_chat { chat_role : string; chat_content : string }.

Definition nl : string := String "010"%char EmptyString.

Definition system_prompt : string :=
  String.append "You are a helpful AI assistant integrated with Context7 for enhanced contextual understanding. "
    (String.append nl
       "Provide clear, accurate, and helpful responses. Keep your answers concise but comprehensive.").

Section Prompt.

Context {json : Type}.

(** [if (context)]: only a non-empty context is added. *)
Definition buildMessagesArray (currentMessage : string)
    (conversationHistory : list (ConversationMessage json)) (context : string)
  : list chat_message :=
  let systemMessage :=
    if String.eqb context "" then system_prompt
    else String.append system_prompt
           (String.append nl (String.append nl
              (String.append "Relevant context for this conversation:" (String.append nl context)))) in
  [mk_chat "system" systemMessage] ++
  map (fun msg => mk_chat (if decide (msg_role msg = User) then "user" else "assistant")
                          (content msg)) conversationHistory ++
  [mk_chat "user" currentMessage].

(** [generateResponse]: an empty or missing answer, or a throw of
    [ai.run], becomes one fixed error. *)
Definition generateResponse (ai_run : list chat_message -> result (option string))
    (message : string) (conversationHistory : list (ConversationMessage json))
    (context : string) : result string :=
  match ai_run (buildMessagesArray message conversationHistory context) with
  | Ok (Some r) => if String.eqb r "" then Throw "Failed to generate AI response"
                   else Ok (Helpers.trim r)
  | _ => Throw "Failed to generate AI response"
  end.

End Prompt.

End AI.

(** [AgentHandler.handleAgentRequest] (agent.ts, lines 28-180).  The
    Context7 search only decides the [relevantContext] string and its
    calls never throw (callMCP catches), and the [storeContext] call has
    no effect on the KV store or the table: the first is an input, the
    second is left out.  Logging is assumed not to throw. *)
Module Agent.

Import RateLimit Conversations Requests AI.

(** What one [storeMessage] call draws: whether the [INSERT] and the
    cleanup [DELETE] throw, and the generated id and timestamp. *)
Record store_call := mk_store_call {
  insert_fails : bool;
  cleanup_fails : bool;
  new_id : string;
  new_ts : string
}.

(** Everything of one request that the code does not compute itself. *)
Record request_io := mk_request_io {
  io_now : Z;
  io_kv_faults : kv_faults;
  io_new_conversation_id : string;
  io_init_fails : bool;
  io_user_store : store_call;
  io_select_fails : bool;
  io_relevant_context : string;
  io_assistant_store : store_call;
  io_count_distinct_fails : bool;
  io_count_all_fails : bool
}.

(** The responses, by status: 400, 429, 500 and 200. *)
Inductive agent_outcome :=
| InvalidRequest (message : string)
| RateLimited (reset : Z)
| InternalError
| Answered (response conversationId : string) (hasContext : bool)
    (messageCount : nat) (remaining reset : Z).

Definition agent_status (o : agent_outcome) : Z :=
  match o with
  | InvalidRequest _ => 400
  | RateLimited _ => 429
  | InternalError => 500
  | Answered _ _ _ _ _ _ => 200
  end.

(** [conversationHistory.slice(-10)]. *)
Definition last_n {A} (n : nat) (l : list A) : list A := drop (length l - n) l.

Section Handler.

Variable JSON_stringify : js_value -> string.
Variable JSON_parse : string -> option js_value.
Variable ai_run : list chat_message -> result (option string).
Variable limitPerMinute maxHistoryLength : Z.

Definition store (s : store_call) (c : string) (rl : role) (body : string)
    (md : option js_value) (tbl : table) : result (ConversationMessage js_value) * table :=
  storeMessage JSON_stringify maxHistoryLength (insert_fails s) (cleanup_fails s)
    (new_id s) (new_ts s) c rl body md tbl.

Definition handleAgentRequest (body : result js_value) (cfConnectingIp xForwardedFor : option string)
    (io : request_io) (kv : kv_store) (tbl : table) : agent_outcome * kv_store * table :=
  match body with
  | Throw _ => (InternalError, kv, tbl)
  | Ok b =>
    let validation := validateAgentRequest b in
    if negb (isValid validation)
    then (InvalidRequest (String.append "Invalid request: " (String.concat ", " (errors validation))),
          kv, tbl)
    else
    let message := Helpers.sanitizeString (default "" (string_field b "message")) in
    let clientId := Helpers.getClientIdentifier (string_field b "userId")
                      cfConnectingIp xForwardedFor in
    let (rateLimitInfo, kv1) :=
      checkRateLimit limitPerMinute (io_kv_faults io) (io_now io) clientId kv in
    if blocked rateLimitInfo then (RateLimited (resetTime rateLimitInfo), kv1, tbl)
    else
    let conversationId := Helpers.js_or (string_field b "conversationId")
                            (io_new_conversation_id io) in
    if io_init_fails io then (InternalError, kv1, tbl)
    else
    match store (io_user_store io) conversationId User message
            (get_property b "metadata") tbl with
    | (Throw _, tbl1) => (InternalError, kv1, tbl1)
    | (Ok _, tbl1) =>
      let conversationHistory :=
        getConversationHistory JSON_parse maxHistoryLength (io_select_fails io)
          conversationId tbl1 in
      let relevantContext := io_relevant_context io in
      match generateResponse ai_run message (last_n 10 conversationHistory) relevantContext with
      | Throw _ => (InternalError, kv1, tbl1)
      | Ok aiResponse =>
        match store (io_assistant_store io) conversationId Assistant aiResponse None tbl1 with
        | (Throw _, tbl2) => (InternalError, kv1, tbl2)
        | (Ok _, tbl2) =>
          (Answered aiResponse conversationId
             (negb (Nat.eqb (String.length relevantContext) 0))
             (length conversationHistory + 1)
             (remaining rateLimitInfo) (resetTime rateLimitInfo), kv1, tbl2)
        end
      end
    end
  end.

End Handler.

End Agent.

(** The worker's [fetch] (src/index.ts, lines 7-92) with the handlers of
    src/handlers/utility.ts it dispatches to.  Handler construction
    throws when [CONTEXT7_API_KEY] is missing or empty (the
    [Context7Service] constructor, context7.ts, lines 9-15). *)
Module Router.

Import RateLimit Conversations Requests AI Agent.

Record http_request := mk_http_request {
  method : string;
  path : string;
  query_id : option string;
  body : result js_value;
  cf_connecting_ip : option string;
  x_forwarded_for : option string
}.

Inductive route_outcome :=
| Preflight
| AgentReply (o : agent_outcome)
| HealthOk
| StatsOk (s : Stats)
| RateLimitMissingId
| RateLimitStatus (info : RateLimitInfo)
| MethodNotAllowed (allowedMethods : list string)
| NotFound
| UnhandledError.

Definition route_status (o : route_outcome) : Z :=
  match o with
  | Preflight => 204
  | AgentReply a => agent_status a
  | HealthOk => 200
  | StatsOk _ => 200
  | RateLimitMissingId => 400
  | RateLimitStatus _ => 200
  | MethodNotAllowed _ => 405
  | NotFound => 404
  | UnhandledError => 500
  end.

(** The [Allow] header of [handleMethodNotAllowed]. *)
Definition allow_header (allowedMethods : list string) : string :=
  String.concat ", " allowedMethods.

Section Fetch.

Variable JSON_stringify : js_value -> string.
Variable JSON_parse : string -> option js_value.
Variable ai_run : list chat_message -> result (option string).
Variable limitPerMinute maxHistoryLength : Z.

(** [new AgentHandler(env)]. *)
Definition construction_fails (context7_api_key : option string) : bool :=
  match context7_api_key with
  | None => true
  | Some k => String.eqb k ""
  end.

Definition fetch (context7_api_key : option string) (request : http_request)
    (io : request_io) (kv : kv_store) (tbl : table) : route_outcome * kv_store * table :=
  if construction_fails context7_api_key then (UnhandledError, kv, tbl)
  else if String.eqb (method request) "OPTIONS" then (Preflight, kv, tbl)
  else if String.eqb (path request) "/agent" && String.eqb (method request) "POST" then
    let '(o, kv', tbl') :=
      handleAgentRequest JSON_stringify JSON_parse ai_run limitPerMinute maxHistoryLength
        (body request) (cf_connecting_ip request) (x_forwarded_for request) io kv tbl in
    (AgentReply o, kv', tbl')
  else if String.eqb (path request) "/health" && String.eqb (method request) "GET" then
    (HealthOk, kv, tbl)
  else if String.eqb (path request) "/stats" && String.eqb (method request) "GET" then
    (StatsOk (getConversationStats (io_count_distinct_fails io) (io_count_all_fails io) tbl), kv, tbl)
  else if String.eqb (path request) "/rate-limit" && String.eqb (method request) "GET" then
    match query_id request with
    | Some identifier =>
        if String.eqb identifier "" then (RateLimitMissingId, kv, tbl)
        else (RateLimitStatus (getRateLimitStatus limitPerMinute (io_kv_faults io) (io_now io)
                                 identifier kv), kv, tbl)
    | None => (RateLimitMissingId, kv, tbl)
    end
  else if String.eqb (path request) "/agent" && negb (String.eqb (method request) "POST") then
    (MethodNotAllowed ["POST"; "OPTIONS"], kv, tbl)
  else if bool_decide (path request ∈ ["/health"; "/stats"; "/rate-limit"]) &&
          negb (String.eqb (method request) "GET") then
    (MethodNotAllowed ["GET"; "OPTIONS"], kv, tbl)
  else (NotFound, kv, tbl).

End Fetch.

End Router.

(** Concrete requests for the handler and the router. *)
Module AppFixtures.

Import RateLimit Requests Agent Router.

Definition alice_body : js_value :=
  JObject [("message", JString " <b>hi</b> "); ("userId", JString "alice")].

(** Two requests of [user:alice] already counted in the window starting
    at 600000. *)
Definition kv_alice_two : kv_store :=
  <[rate_limit_key "user:alice" := mk_kv_entry (CounterRec 2 600000) 720005]> ∅.

Definition io_ok : request_io :=
  mk_request_io 610000 no_kv_faults "conv-new" false
    (mk_store_call false false "m-user" "2024-01-01T00:10:10.000Z") false ""
    (mk_store_call false false "m-asst" "2024-01-01T00:10:11.000Z") false false.

Definition get_request (p : string) (q : option string) : http_request :=
  mk_http_request "GET" p q (Throw "no body") None None.

End AppFixtures.

Module RateLimitProofs.

Import RateLimit.
Local Open Scope Z_scope.

Lemma read_count_window_count f now key kv c :
  get_fails f = false -> window_count now key kv c ->
  read_count f now key kv (window_start now) = Ok c.
Proof.
  intros Hf Hc. unfold read_count, kv_get. rewrite Hf.
  destruct Hc as [Hl | e Hl Hexp | e c' w Hl Hexp Hv Hw | e Hl Hexp Hv | e c' Hl Hexp Hv];
    rewrite Hl; cbn [rbind]; try reflexivity.
  - replace (now <? kv_expires_at e) with false by (symmetry; apply Z.ltb_ge; lia).
    reflexivity.
  - replace (now <? kv_expires_at e) with true by (symmetry; apply Z.ltb_lt; lia).
    rewrite Hv. cbn. replace (w =? window_start now) with false
      by (symmetry; apply Z.eqb_neq; exact Hw). reflexivity.
  - replace (now <? kv_expires_at e) with true by (symmetry; apply Z.ltb_lt; lia).
    rewrite Hv. reflexivity.
  - replace (now <? kv_expires_at e) with true by (symmetry; apply Z.ltb_lt; lia).
    rewrite Hv. cbn. rewrite Z.eqb_refl. reflexivity.
Qed.

(** The count read is what the [checkRateLimit] try block acts on. *)
Lemma checkRateLimit_try_read limit f now id kv c :
  read_count f now (rate_limit_key id) kv (window_start now) = Ok c ->
  checkRateLimit_try limit f now id kv =
    (let remaining := Z.max 0 (limit - c) in
     let blocked := remaining =? 0 in
     let! kv' := (if negb blocked
                  then kv_put f now (rate_limit_key id)
                         (CounterRec (c + 1) (window_start now)) 120 kv
                  else Ok kv) in
     Ok (mk_info (if blocked then 0 else remaining - 1)
                 (window_start now + 60000) blocked, kv')).
Proof. intros H. unfold checkRateLimit_try. rewrite H. reflexivity. Qed.

Lemma window_start_advance now now' :
  window_start now + 60000 <= now' -> window_start now < window_start now'.
Proof. unfold window_start. intros H. Z.div_mod_to_equations. lia. Qed.

(** Claim C1: when the stored count [c] for the current window is below
    the limit and the store does not fail, [checkRateLimit] writes
    [{count: c + 1, window: windowStart}] with an expiry of 2 x 60000 ms
    and returns [blocked = false], [remaining = limit - c - 1 >= 0],
    [resetTime = windowEnd]. *)
Theorem checkRateLimit_below_limit limit f now id kv c :
  get_fails f = false -> put_fails f = false ->
  window_count now (rate_limit_key id) kv c -> c < limit ->
  checkRateLimit limit f now id kv =
    (mk_info (limit - c - 1) (window_start now + 60000) false,
     <[rate_limit_key id :=
         mk_kv_entry (CounterRec (c + 1) (window_start now)) (now + 2 * 60000)]> kv)
  /\ 0 <= limit - c - 1.
Proof.
  intros Hg Hp Hc Hlt. split; [| lia].
  unfold checkRateLimit.
  rewrite (checkRateLimit_try_read limit f now id kv c)
    by (apply read_count_window_count; assumption).
  cbn zeta.
  replace (Z.max 0 (limit - c)) with (limit - c) by lia.
  replace (limit - c =? 0) with false by (symmetry; apply Z.eqb_neq; lia).
  unfold kv_put. rewrite Hp. cbn.
  do 3 f_equal; lia.
Qed.


Lemma checkRateLimit_below_limit_witness :
  checkRateLimit 3 no_kv_faults 600005 "u1" ∅ =
    (mk_info 2 660000 false,
     <[rate_limit_key "u1" := mk_kv_entry (CounterRec 1 600000) 720005]> ∅) /\
  checkRateLimit 3 no_kv_faults 610000 "u1"
    (<[rate_limit_key "u1" := mk_kv_entry (CounterRec 1 600000) 720005]> ∅) =
    (mk_info 1 660000 false,
     <[rate_limit_key "u1" := mk_kv_entry (CounterRec 2 600000) 730000]> ∅) /\
  checkRateLimit 3 no_kv_faults 620000 "u1"
    (<[rate_limit_key "u1" := mk_kv_entry (CounterRec 2 600000) 730000]> ∅) =
    (mk_info 0 660000 false,
     <[rate_limit_key "u1" := mk_kv_entry (CounterRec 3 600000) 740000]> ∅).
Proof.
  split; [| split].
  - assert (Hc : window_count 600005 (rate_limit_key "u1") (∅ : kv_store) 0)
      by (apply wc_absent; vm_compute; reflexivity).
    rewrite (proj1 (checkRateLimit_below_limit 3 no_kv_faults 600005 "u1" ∅ 0
                      eq_refl eq_refl Hc ltac:(lia))).
    vm_compute. reflexivity.
  - assert (Hc : window_count 610000 (rate_limit_key "u1")
              (<[rate_limit_key "u1" := mk_kv_entry (CounterRec 1 600000) 720005]>
                 (∅ : kv_store)) 1)
      by (apply (wc_current _ _ _ (mk_kv_entry (CounterRec 1 600000) 720005));
          [vm_compute; reflexivity | simpl; lia | vm_compute; reflexivity]).
    rewrite (proj1 (checkRateLimit_below_limit 3 no_kv_faults 610000 "u1" _ 1
                      eq_refl eq_refl Hc ltac:(lia))).
    vm_compute. reflexivity.
  - assert (Hc : window_count 620000 (rate_limit_key "u1")
              (<[rate_limit_key "u1" := mk_kv_entry (CounterRec 2 600000) 730000]>
                 (∅ : kv_store)) 2)
      by (apply (wc_current _ _ _ (mk_kv_entry (CounterRec 2 600000) 730000));
          [vm_compute; reflexivity | simpl; lia | vm_compute; reflexivity]).
    rewrite (proj1 (checkRateLimit_below_limit 3 no_kv_faults 620000 "u1" _ 2
                      eq_refl eq_refl Hc ltac:(lia))).
    vm_compute. reflexivity.
Defined.

(** Claim C2: when the stored count [c] for the current window is at
    least the limit and the read succeeds, [checkRateLimit] returns
    [blocked = true], [remaining = 0], [resetTime = windowEnd] and the
    store is returned unchanged: no write happens, whether or not a write
    would fail. *)
Theorem checkRateLimit_at_limit limit f now id kv c :
  get_fails f = false ->
  window_count now (rate_limit_key id) kv c -> limit <= c ->
  checkRateLimit limit f now id kv =
    (mk_info 0 (window_start now + 60000) true, kv).
Proof.
  intros Hg Hc Hle. unfold checkRateLimit.
  rewrite (checkRateLimit_try_read limit f now id kv c)
    by (apply read_count_window_count; assumption).
  cbn zeta.
  replace (Z.max 0 (limit - c)) with 0 by lia.
  reflexivity.
Qed.

Lemma checkRateLimit_at_limit_witness :
  checkRateLimit 3 (mk_kv_faults false true) 630000 "u1"
    (<[rate_limit_key "u1" := mk_kv_entry (CounterRec 3 600000) 740000]> ∅) =
    (mk_info 0 660000 true,
     <[rate_limit_key "u1" := mk_kv_entry (CounterRec 3 600000) 740000]> ∅).
Proof.
  assert (Hc : window_count 630000 (rate_limit_key "u1")
            (<[rate_limit_key "u1" := mk_kv_entry (CounterRec 3 600000) 740000]>
               (∅ : kv_store)) 3)
    by (apply (wc_current _ _ _ (mk_kv_entry (CounterRec 3 600000) 740000));
        [vm_compute; reflexivity | simpl; lia | vm_compute; reflexivity]).
  rewrite (checkRateLimit_at_limit 3 (mk_kv_faults false true) 630000 "u1" _ 3
             eq_refl Hc ltac:(lia)).
  reflexivity.
Defined.

(** Claim C3 (amended): a failing [kv.get] or [kv.put] is never raised.
    When [kv.get] throws, [checkRateLimit] returns [remaining = limit - 1],
    [blocked = false], [resetTime = windowEnd] and writes nothing, while
    [getRateLimitStatus] returns [remaining = limit] (not [limit - 1]),
    [blocked = false], [resetTime = windowEnd].  When [kv.put] throws,
    nothing is written and [checkRateLimit] returns the same fail-open
    answer, unless the call was blocked and attempted no write. *)
Theorem rate_limit_store_errors_fail_open limit f now id kv :
  (get_fails f = true ->
     checkRateLimit limit f now id kv =
       (mk_info (limit - 1) (window_start now + 60000) false, kv) /\
     getRateLimitStatus limit f now id kv =
       mk_info limit (window_start now + 60000) false) /\
  (put_fails f = true ->
     snd (checkRateLimit limit f now id kv) = kv /\
     (fst (checkRateLimit limit f now id kv) =
        mk_info (limit - 1) (window_start now + 60000) false \/
      blocked (fst (checkRateLimit limit f now id kv)) = true)).
Proof.
  split.
  - intros Hg. unfold checkRateLimit, checkRateLimit_try, getRateLimitStatus,
      getRateLimitStatus_try, read_count, kv_get. rewrite Hg. split; reflexivity.
  - intros Hp. unfold checkRateLimit.
    destruct (read_count f now (rate_limit_key id) kv (window_start now)) as [c | e] eqn:Hr.
    + rewrite (checkRateLimit_try_read limit f now id kv c Hr). cbn zeta.
      destruct (Z.max 0 (limit - c) =? 0) eqn:Hb; cbn.
      * split; [reflexivity | right; reflexivity].
      * unfold kv_put. rewrite Hp. cbn. split; [reflexivity | left; reflexivity].
    + unfold checkRateLimit_try. rewrite Hr. cbn.
      split; [reflexivity | left; reflexivity].
Qed.

Lemma rate_limit_store_errors_fail_open_witness :
  checkRateLimit 3 (mk_kv_faults true false) 600005 "u1" (∅ : kv_store) =
    (mk_info 2 660000 false, (∅ : kv_store)) /\
  getRateLimitStatus 3 (mk_kv_faults true false) 600005 "u1" (∅ : kv_store) =
    mk_info 3 660000 false.
Proof.
  destruct (rate_limit_store_errors_fail_open 3 (mk_kv_faults true false) 600005 "u1" (∅ : kv_store))
    as [H _].
  destruct (H eq_refl) as [H1 H2]. rewrite H1, H2. split; reflexivity.
Defined.

(** Claim C3 fails for [getRateLimitStatus]: when [kv.get] throws it
    reports [remaining = limit], here 3, not [limit - 1]. *)
Lemma getRateLimitStatus_fail_open_not_limit_minus_one :
  remaining (getRateLimitStatus 3 (mk_kv_faults true false) 600005 "u1" (∅ : kv_store)) <> 3 - 1.
Proof. vm_compute. intros H. discriminate H. Qed.

(** A count of 0 admits the request, whether or not the write fails. *)
Lemma checkRateLimit_count_zero limit f now id kv :
  0 < limit ->
  read_count f now (rate_limit_key id) kv (window_start now) = Ok 0 ->
  checkRateLimit limit f now id kv =
    (mk_info (limit - 1) (window_start now + 60000) false,
     if put_fails f then kv
     else <[rate_limit_key id :=
              mk_kv_entry (CounterRec 1 (window_start now)) (now + 2 * 60000)]> kv).
Proof.
  intros Hl Hr. unfold checkRateLimit.
  rewrite (checkRateLimit_try_read limit f now id kv 0 Hr). cbn zeta.
  replace (Z.max 0 (limit - 0)) with limit by lia.
  replace (limit =? 0) with false by (symmetry; apply Z.eqb_neq; lia).
  unfold kv_put. destruct (put_fails f); cbn; [reflexivity |].
  do 3 f_equal; lia.
Qed.

(** A non-zero count comes from a live record of the window asked for. *)
Lemma read_count_nonzero f now key kv ws c :
  read_count f now key kv ws = Ok c -> c <> 0 ->
  exists e, kv !! key = Some e /\ kv_value e = CounterRec c ws.
Proof.
  unfold read_count, kv_get. destruct (get_fails f); [discriminate |].
  cbn [rbind]. destruct (kv !! key) as [e |]; [| intros [= <-]; lia].
  destruct (now <? kv_expires_at e); [| intros [= <-]; lia].
  destruct (kv_value e) as [c' w | |] eqn:Hv; cbn; [| intros [= <-]; lia | discriminate].
  destruct (w =? ws) eqn:Hw; intros [= <-]; [| lia].
  apply Z.eqb_eq in Hw. subst w. intros _. exists e. split; [reflexivity | exact Hv].
Qed.

(** A record of another window is read as count 0 (or the read throws). *)
Lemma read_count_other_window f now key kv e c w ws :
  kv !! key = Some e -> kv_value e = CounterRec c w -> w <> ws ->
  read_count f now key kv ws = Ok 0 \/ exists msg, read_count f now key kv ws = Throw msg.
Proof.
  intros Hl Hv Hw. unfold read_count, kv_get.
  destruct (get_fails f); [right; eexists; reflexivity |].
  cbn [rbind]. rewrite Hl. left.
  destruct (now <? kv_expires_at e); [| reflexivity].
  rewrite Hv. cbn. replace (w =? ws) with false by (symmetry; apply Z.eqb_neq; exact Hw).
  reflexivity.
Qed.

(** Claim C8: a record that is absent or belongs to another window is
    treated as count 0: the call is admitted with
    [remaining = limit - 1] and writes [{count: 1, window: windowStart}]
    (unless the write fails, which is answered the same way).  Hence an
    identifier blocked at time [now] is admitted again, with
    [remaining = limit - 1], at any time [now'] from its [resetTime] on,
    whatever the store does at [now']. *)
Theorem checkRateLimit_window_reset limit :
  0 < limit ->
  (forall f now id kv,
     get_fails f = false ->
     (kv !! rate_limit_key id = None \/
      exists e c w, kv !! rate_limit_key id = Some e /\
                    kv_value e = CounterRec c w /\ w <> window_start now) ->
     checkRateLimit limit f now id kv =
       (mk_info (limit - 1) (window_start now + 60000) false,
        if put_fails f then kv
        else <[rate_limit_key id :=
                 mk_kv_entry (CounterRec 1 (window_start now)) (now + 2 * 60000)]> kv)) /\
  (forall f f' now now' id kv,
     blocked (fst (checkRateLimit limit f now id kv)) = true ->
     resetTime (fst (checkRateLimit limit f now id kv)) <= now' ->
     fst (checkRateLimit limit f' now' id (snd (checkRateLimit limit f now id kv))) =
       mk_info (limit - 1) (window_start now' + 60000) false).
Proof.
  intros Hl. split.
  - intros f now id kv Hg Hrec. apply checkRateLimit_count_zero; [exact Hl |].
    apply read_count_window_count; [exact Hg |].
    destruct Hrec as [Hn | (e & c & w & He & Hv & Hw)].
    + apply wc_absent. exact Hn.
    + destruct (Z.lt_ge_cases now (kv_expires_at e)).
      * eapply wc_stale; eassumption.
      * eapply wc_expired; eassumption.
  - intros f f' now now' id kv Hb Hr.
    unfold checkRateLimit in Hb, Hr |- *.
    destruct (read_count f now (rate_limit_key id) kv (window_start now)) as [c | msg] eqn:Hc.
    2: { unfold checkRateLimit_try in Hb. rewrite Hc in Hb. discriminate Hb. }
    rewrite (checkRateLimit_try_read limit f now id kv c Hc) in Hb, Hr |- *.
    cbn zeta in Hb, Hr |- *.
    destruct (Z.max 0 (limit - c) =? 0) eqn:Hz.
    2: { unfold kv_put in Hb. destruct (put_fails f); discriminate Hb. }
    cbn in Hr |- *. apply Z.eqb_eq in Hz.
    destruct (read_count_nonzero f now _ kv _ c Hc ltac:(lia)) as (e & He & Hv).
    assert (Hws : window_start now < window_start now')
      by (apply window_start_advance; exact Hr).
    destruct (read_count_other_window f' now' (rate_limit_key id) kv e c
                (window_start now) (window_start now') He Hv ltac:(lia))
      as [H0 | [msg H0]].
    + pose proof (checkRateLimit_count_zero limit f' now' id kv Hl H0) as H.
      unfold checkRateLimit in H. rewrite H. reflexivity.
    + unfold checkRateLimit_try. rewrite H0. reflexivity.
Qed.

Lemma checkRateLimit_window_reset_witness :
  checkRateLimit 3 no_kv_faults 600005 "u1" ∅ =
    (mk_info 2 660000 false,
     <[rate_limit_key "u1" := mk_kv_entry (CounterRec 1 600000) 720005]> ∅) /\
  fst (checkRateLimit 3 no_kv_faults 660000 "u1"
         (snd (checkRateLimit 3 no_kv_faults 630000 "u1"
                 (<[rate_limit_key "u1" := mk_kv_entry (CounterRec 3 600000) 740000]> ∅)))) =
    mk_info 2 720000 false.
Proof.
  destruct (checkRateLimit_window_reset 3 ltac:(lia)) as [HA HB]. split.
  - rewrite (HA no_kv_faults 600005 "u1" ∅ eq_refl); [vm_compute; reflexivity |].
    left. vm_compute. reflexivity.
  - rewrite (HB no_kv_faults no_kv_faults 630000 660000 "u1"
               (<[rate_limit_key "u1" := mk_kv_entry (CounterRec 3 600000) 740000]> ∅));
      vm_compute; first [reflexivity | discriminate].
Defined.

End RateLimitProofs.

Module ConversationProofs.

Import Conversations Fixtures.

Global Instance ts_ge_transitive : Transitive ts_ge.
Proof. intros a b c H1 H2. unfold ts_ge, ts_le in *. by trans (row_timestamp b). Qed.
Global Instance ts_ge_total : Total ts_ge.
Proof. intros a b. unfold ts_ge, ts_le. apply String.le_total. Qed.
Global Instance ts_le_transitive : Transitive ts_le.
Proof. intros a b c H1 H2. unfold ts_le in *. by trans (row_timestamp b). Qed.
Global Instance ts_le_total : Total ts_le.
Proof. intros a b. unfold ts_le. apply String.le_total. Qed.

Lemma filter_all {A} (P : A -> Prop) `{!forall x, Decision (P x)} (l : list A) :
  (forall x, x ∈ l -> P x) -> filter P l = l.
Proof.
  induction l as [| x l IH]; intros Hall; [done |].
  rewrite filter_cons_True by (apply Hall; set_solver). f_equal. apply IH. set_solver.
Qed.

Lemma filter_none {A} (P : A -> Prop) `{!forall x, Decision (P x)} (l : list A) :
  (forall x, x ∈ l -> ~ P x) -> filter P l = [].
Proof.
  induction l as [| x l IH]; intros Hnone; [done |].
  rewrite filter_cons_False by (apply Hnone; set_solver). apply IH. set_solver.
Qed.

Lemma NoDup_map_filter {A B} (f : A -> B) (P : A -> Prop) `{!forall x, Decision (P x)}
    (l : list A) :
  NoDup (map f l) -> NoDup (map f (filter P l)).
Proof.
  induction l as [| x l IH]; intros Hnd; [constructor |].
  cbn in Hnd. apply NoDup_cons in Hnd as [Hx Hl].
  rewrite filter_cons. destruct (decide (P x)); cbn; [| by apply IH].
  constructor; [| by apply IH].
  intros Hin. apply Hx. apply list_elem_of_In in Hin. apply list_elem_of_In.
  apply in_map_iff in Hin as (y & Hy & Hy'). apply in_map_iff. exists y. split; [done |].
  apply list_elem_of_In. apply list_elem_of_In in Hy'. apply list_elem_of_filter in Hy'.
  apply Hy'.
Qed.

(** Keeping, among rows with distinct ids, the rows whose id is among
    those of a prefix keeps exactly the prefix. *)
Lemma filter_ids_of_prefix (S : list row) (k : nat) :
  NoDup (map row_id S) ->
  filter (fun r => row_id r ∈ map row_id (take k S)) S = take k S.
Proof.
  intros Hnd.
  rewrite <- (take_drop k S) at 1. rewrite filter_app.
  rewrite (filter_all _ (take k S)).
  2: { intros x Hx. apply list_elem_of_In. apply in_map. by apply list_elem_of_In. }
  rewrite (filter_none _ (drop k S)); [by rewrite app_nil_r |].
  intros x Hx Hin.
  rewrite <- (take_drop k S), map_app in Hnd.
  apply NoDup_app in Hnd as (_ & Hdis & _).
  apply (Hdis (row_id x) Hin).
  apply list_elem_of_In. apply in_map. by apply list_elem_of_In.
Qed.

Lemma where_conversation_app_new c tbl r :
  row_conversation_id r = c ->
  where_conversation c (tbl ++ [r]) = where_conversation c tbl ++ [r].
Proof.
  intros Hc. unfold where_conversation. rewrite filter_app.
  by rewrite filter_singleton_True.
Qed.

Lemma NoDup_ids_order_desc c tbl :
  NoDup (map row_id tbl) ->
  NoDup (map row_id (order_by_timestamp_desc (where_conversation c tbl))).
Proof.
  intros Hnd. unfold order_by_timestamp_desc.
  rewrite (Permutation_map row_id (merge_sort_Permutation _ _)).
  by apply NoDup_map_filter.
Qed.

(** A successful clean-up leaves, of conversation [c], exactly the [n]
    rows first in descending timestamp order. *)
Lemma cleanup_keeps_recent (n : Z) c tbl :
  (0 <= n)%Z -> NoDup (map row_id tbl) ->
  where_conversation c (cleanupConversation n false c tbl) ≡ₚ
    take (Z.to_nat n) (order_by_timestamp_desc (where_conversation c tbl)).
Proof.
  intros Hn Hnd.
  unfold cleanupConversation, sql_delete_all_but_recent, sql_limit.
  replace (n <? 0)%Z with false by (symmetry; apply Z.ltb_ge; lia). cbn.
  set (S := order_by_timestamp_desc (where_conversation c tbl)).
  set (K := take (Z.to_nat n) S).
  transitivity (filter (fun r => row_id r ∈ map row_id K) (where_conversation c tbl)).
  { unfold where_conversation. rewrite !list_filter_filter.
    apply reflexive_eq, list_filter_iff. naive_solver. }
  transitivity (filter (fun r => row_id r ∈ map row_id K) S).
  { apply filter_Permutation. symmetry. apply merge_sort_Permutation. }
  unfold K. rewrite filter_ids_of_prefix; [done |].
  by apply NoDup_ids_order_desc.
Qed.

Lemma cleanup_other_conversation (n : Z) fails c c' tbl :
  c' <> c ->
  where_conversation c' (cleanupConversation n fails c tbl) = where_conversation c' tbl.
Proof.
  intros Hne. unfold cleanupConversation, sql_delete_all_but_recent.
  destruct fails; [done |]. cbn.
  unfold where_conversation. rewrite list_filter_filter.
  apply list_filter_iff. naive_solver.
Qed.

Lemma cleanup_NoDup (n : Z) fails c tbl :
  NoDup (map row_id tbl) -> NoDup (map row_id (cleanupConversation n fails c tbl)).
Proof.
  intros Hnd. unfold cleanupConversation, sql_delete_all_but_recent.
  destruct fails; [done |]. by apply NoDup_map_filter.
Qed.

Section Retention.

Variable json : Type.
Variable JSON_stringify : json -> string.

Lemma storeMessage_inserted cap cl_f mid ts c rl body md tbl :
  mid ∉ map row_id tbl ->
  storeMessage JSON_stringify cap false cl_f mid ts c rl body md tbl =
    (Ok (mk_message mid c rl body ts md),
     cleanupConversation cap cl_f c
       (tbl ++ [mk_row mid c rl body ts (option_map JSON_stringify md)])).
Proof.
  intros Hfresh. unfold storeMessage, sql_insert. cbn.
  by rewrite bool_decide_eq_false_2.
Qed.

(** Claim C4 (amended): an append whose insert succeeds (fresh [id]) in a
    table whose ids are distinct, with a positive [maxHistoryLength],
    returns the message and keeps the ids distinct.  If the retention
    step fails, the row is simply added and nothing is trimmed.  If it
    succeeds, conversation [c] keeps [min maxHistoryLength (old count + 1)]
    rows, each at least as recent as every row removed, and the other
    conversations are untouched. *)
Theorem storeMessage_retention cap cl_f mid ts c rl body md tbl :
  (0 < cap)%Z -> NoDup (map row_id tbl) -> mid ∉ map row_id tbl ->
  let newrow := mk_row mid c rl body ts (option_map JSON_stringify md) in
  let res := storeMessage JSON_stringify cap false cl_f mid ts c rl body md tbl in
  fst res = Ok (mk_message mid c rl body ts md) /\
  NoDup (map row_id (snd res)) /\
  (cl_f = true -> snd res = tbl ++ [newrow]) /\
  (cl_f = false ->
     length (where_conversation c (snd res)) =
       Nat.min (Z.to_nat cap) (length (where_conversation c tbl) + 1) /\
     (forall r r', r ∈ where_conversation c (snd res) ->
        r' ∈ where_conversation c (tbl ++ [newrow]) ->
        r' ∉ where_conversation c (snd res) ->
        String.le (row_timestamp r') (row_timestamp r)) /\
     (forall c', c' <> c -> where_conversation c' (snd res) = where_conversation c' tbl)).
Proof.
  intros Hcap Hnd Hfresh newrow res. unfold res.
  rewrite storeMessage_inserted by exact Hfresh. cbn [fst snd]. fold newrow.
  assert (Hnd1 : NoDup (map row_id (tbl ++ [newrow]))).
  { rewrite map_app. apply NoDup_app. split; [done |]. split.
    - intros x Hx Hin. apply list_elem_of_singleton in Hin. subst x. by apply Hfresh.
    - apply NoDup_singleton. }
  split; [done |]. split; [by apply cleanup_NoDup |]. split.
  { intros ->. reflexivity. }
  intros ->.
  pose proof (cleanup_keeps_recent cap c (tbl ++ [newrow]) ltac:(lia) Hnd1) as Hperm.
  set (S := order_by_timestamp_desc (where_conversation c (tbl ++ [newrow]))) in Hperm.
  split; [| split].
  - rewrite (Permutation_length Hperm), length_take.
    unfold S, order_by_timestamp_desc.
    rewrite (Permutation_length (merge_sort_Permutation _ _)).
    rewrite where_conversation_app_new by reflexivity.
    rewrite length_app. reflexivity.
  - intros r r' Hr Hr' Hnot.
    rewrite Hperm in Hr. rewrite Hperm in Hnot.
    assert (Hr'S : r' ∈ S).
    { unfold S, order_by_timestamp_desc. by rewrite merge_sort_Permutation. }
    rewrite <- (take_drop (Z.to_nat cap) S) in Hr'S.
    apply elem_of_app in Hr'S as [Hin | Hin]; [contradiction |].
    assert (Hss : StronglySorted ts_ge (take (Z.to_nat cap) S ++ drop (Z.to_nat cap) S)).
    { rewrite take_drop. unfold S, order_by_timestamp_desc.
      apply (StronglySorted_merge_sort ts_ge). }
    exact (StronglySorted_app_1_elem_of _ _ _ r r' Hss Hr Hin).
  - intros c' Hne. rewrite cleanup_other_conversation by exact Hne.
    unfold where_conversation. rewrite filter_app.
    rewrite (filter_singleton_False _ newrow []) by (cbn; congruence).
    by rewrite app_nil_r.
Qed.

End Retention.

Lemma storeMessage_retention_witness :
  fst (storeMessage toy_stringify 2 false false "m5" ts5 "c1" User "e" None
         [user_row "m3" ts3 "c" None; user_row "m4" ts4 "d" None]) =
    Ok (mk_message "m5" "c1" User "e" ts5 None) /\
  length (where_conversation "c1"
            (snd (storeMessage toy_stringify 2 false false "m5" ts5 "c1" User "e" None
                    [user_row "m3" ts3 "c" None; user_row "m4" ts4 "d" None]))) = 2%nat.
Proof.
  destruct (storeMessage_retention unit toy_stringify 2 false "m5" ts5 "c1" User "e" None
              [user_row "m3" ts3 "c" None; user_row "m4" ts4 "d" None]
              ltac:(lia)
              ltac:(apply (bool_decide_unpack _); vm_compute; reflexivity)
              ltac:(apply (bool_decide_unpack _); vm_compute; reflexivity))
    as (H1 & _ & _ & H4).
  split; [exact H1 |]. rewrite (proj1 (H4 eq_refl)). reflexivity.
Defined.

(** Claim C4 fails when the retention step throws: with
    [maxHistoryLength = 2], appending ["c"] to a conversation holding ["a"]
    and ["b"] succeeds and leaves 3 messages. *)
Lemma storeMessage_cleanup_failure_exceeds_cap :
  fst (storeMessage toy_stringify 2 false true "m3" ts3 "c1" User "c" None
         [user_row "m1" ts1 "a" None; user_row "m2" ts2 "b" None]) =
    Ok (mk_message "m3" "c1" User "c" ts3 None) /\
  (Z.to_nat 2 < length (where_conversation "c1"
     (snd (storeMessage toy_stringify 2 false true "m3" ts3 "c1" User "c" None
             [user_row "m1" ts1 "a" None; user_row "m2" ts2 "b" None]))))%nat.
Proof. vm_compute. split; [reflexivity | lia]. Qed.

(** The retention example of the spec: with [maxHistoryLength = 2],
    appending "a" to "e" leaves "d" and "e", read back in that order. *)
Example retention_example :
  map (content (json := unit))
    (getConversationHistory toy_parse 2 false "c1"
       (append 2 "m5" ts5 "e" (append 2 "m4" ts4 "d" (append 2 "m3" ts3 "c"
          (append 2 "m2" ts2 "b" (append 2 "m1" ts1 "a" [])))))) = ["d"; "e"].
Proof. vm_compute. reflexivity. Qed.

Section History.

Variable json : Type.
Variable JSON_parse : string -> option json.

Lemma row_to_message_timestamp r m :
  row_to_message JSON_parse r = Ok m -> timestamp m = row_timestamp r.
Proof.
  unfold row_to_message. destruct (row_metadata r) as [s |]; [| by intros [= <-]].
  destruct (String.eqb s ""); [by intros [= <-] |].
  destruct (JSON_parse s); [by intros [= <-] | discriminate].
Qed.

Lemma map_result_timestamps rows ms :
  map_result (row_to_message JSON_parse) rows = Ok ms ->
  map timestamp ms = map row_timestamp rows.
Proof.
  revert ms. induction rows as [| r rows IH]; intros ms; cbn; [by intros [= <-] |].
  destruct (row_to_message JSON_parse r) as [m |] eqn:Hm; [| discriminate]. cbn.
  destruct (map_result (row_to_message JSON_parse) rows) as [ms' |]; [| discriminate].
  intros [= <-]. cbn. rewrite (row_to_message_timestamp r m Hm). f_equal. by apply IH.
Qed.

Lemma map_result_throws rows r e :
  r ∈ rows -> row_to_message JSON_parse r = Throw e ->
  exists e', map_result (row_to_message JSON_parse) rows = Throw e'.
Proof.
  intros Hin Hr. induction rows as [| x rows IH]; [by apply not_elem_of_nil in Hin |].
  apply elem_of_cons in Hin as [-> | Hin]; cbn.
  - rewrite Hr. eexists. reflexivity.
  - destruct (row_to_message JSON_parse x); cbn; [| eexists; reflexivity].
    destruct (IH Hin) as [e' ->]. eexists. reflexivity.
Qed.

Lemma Sorted_row_timestamps rows :
  Sorted ts_le rows -> Sorted String.le (map row_timestamp rows).
Proof.
  induction 1 as [| r rows Hs IH Hhd]; cbn; constructor; [exact IH |].
  destruct Hhd; cbn; constructor. exact H.
Qed.

(** Claim C5: with a positive [maxHistoryLength], [getConversationHistory]
    returns at most [maxHistoryLength] messages, in ascending timestamp
    order, and returns [[]] when the conversation has no rows and when the
    [SELECT] fails. *)
Theorem getConversationHistory_bounded_sorted cap sel_f c tbl :
  (0 < cap)%Z ->
  (length (getConversationHistory JSON_parse cap sel_f c tbl) <= Z.to_nat cap)%nat /\
  Sorted String.le (map timestamp (getConversationHistory JSON_parse cap sel_f c tbl)) /\
  (where_conversation c tbl = [] -> getConversationHistory JSON_parse cap sel_f c tbl = []) /\
  (sel_f = true -> getConversationHistory JSON_parse cap sel_f c tbl = []).
Proof.
  intros Hcap. unfold getConversationHistory, sql_select_history, sql_limit.
  replace (cap <? 0)%Z with false by (symmetry; apply Z.ltb_ge; lia).
  destruct sel_f; cbn; [split; [lia | split; [constructor | done]] |].
  set (rows := take (Z.to_nat cap) (order_by_timestamp_asc (where_conversation c tbl))).
  destruct (map_result (row_to_message JSON_parse) rows) as [ms |] eqn:Hms;
    [| split; [cbn; lia | split; [constructor | done]]].
  assert (Hlen : length ms = length rows).
  { rewrite <- (length_map timestamp ms), (map_result_timestamps rows ms Hms).
    apply length_map. }
  split; [| split; [| split]].
  - rewrite Hlen. unfold rows. rewrite length_take. lia.
  - rewrite (map_result_timestamps rows ms Hms). apply Sorted_row_timestamps.
    apply StronglySorted_Sorted.
    apply (StronglySorted_app_1_l _ _ (drop (Z.to_nat cap)
             (order_by_timestamp_asc (where_conversation c tbl)))).
    unfold rows. rewrite take_drop. apply (StronglySorted_merge_sort ts_le).
  - intros Hnil. unfold rows in Hms. rewrite Hnil in Hms. unfold order_by_timestamp_asc in Hms.
    cbn in Hms.
    destruct (Z.to_nat cap); cbn in Hms; by injection Hms as <-.
  - discriminate.
Qed.

Lemma getConversationHistory_no_rows cap sel_f c tbl :
  where_conversation c tbl = [] -> getConversationHistory JSON_parse cap sel_f c tbl = [].
Proof.
  intros Hnil. unfold getConversationHistory, sql_select_history, sql_limit.
  destruct sel_f; [reflexivity |]. rewrite Hnil. cbn.
  destruct (cap <? 0)%Z; [reflexivity |]. by destruct (Z.to_nat cap).
Qed.

(** Claim C6: when the [DELETE] fails, [deleteConversation] throws and
    the table is unchanged.  When it succeeds, it returns normally, no row
    of the conversation is left (so [getConversationHistory] returns [[]]
    whatever its limit and whether or not its read fails), the other
    conversations are untouched, and a second delete returns normally
    without changing anything. *)
Theorem deleteConversation_spec del_f c tbl :
  (del_f = true ->
     deleteConversation del_f c tbl = (Throw "Failed to delete conversation", tbl)) /\
  (del_f = false ->
     fst (deleteConversation del_f c tbl) = Ok tt /\
     where_conversation c (snd (deleteConversation del_f c tbl)) = [] /\
     (forall cap sel_f,
        getConversationHistory JSON_parse cap sel_f c
          (snd (deleteConversation del_f c tbl)) = []) /\
     (forall c', c' <> c ->
        where_conversation c' (snd (deleteConversation del_f c tbl)) =
          where_conversation c' tbl) /\
     deleteConversation false c (snd (deleteConversation del_f c tbl)) =
       (Ok tt, snd (deleteConversation del_f c tbl))).
Proof.
  split; [intros ->; reflexivity |]. intros ->.
  unfold deleteConversation, sql_delete_conversation. cbn [fst snd].
  assert (Hnil : where_conversation c (filter (fun r => row_conversation_id r <> c) tbl) = []).
  { unfold where_conversation. rewrite list_filter_filter.
    apply filter_none. intros x _ [H1 H2]. contradiction. }
  split; [reflexivity |]. split; [exact Hnil |]. split.
  { intros cap sel_f. by apply getConversationHistory_no_rows. }
  split.
  { intros c' Hne. unfold where_conversation. rewrite list_filter_filter.
    apply list_filter_iff. naive_solver. }
  cbn. rewrite list_filter_filter. do 2 f_equal. apply list_filter_iff. naive_solver.
Qed.

Lemma map_result_decodable rows :
  (forall r t, r ∈ rows -> row_metadata r = Some t -> t <> "" -> JSON_parse t <> None) ->
  exists ms, map_result (row_to_message JSON_parse) rows = Ok ms /\
    map id ms = map row_id rows /\
    (forall r, r ∈ rows -> row_metadata r = Some "" ->
       mk_message (row_id r) (row_conversation_id r) (row_role r) (row_content r)
                  (row_timestamp r) None ∈ ms).
Proof.
  induction rows as [| r rows IH]; intros Hdec.
  - exists []. split; [reflexivity |]. split; [reflexivity |].
    intros r Hin. by apply not_elem_of_nil in Hin.
  - destruct IH as (ms & Hms & Hids & Hempty).
    { intros r' t Hin. apply Hdec. by apply elem_of_cons; right. }
    assert (Hr : exists m, row_to_message JSON_parse r = Ok m /\ id m = row_id r /\
              (row_metadata r = Some "" ->
               m = mk_message (row_id r) (row_conversation_id r) (row_role r) (row_content r)
                              (row_timestamp r) None)).
    { unfold row_to_message. destruct (row_metadata r) as [t |] eqn:Hm.
      - destruct (String.eqb t "") eqn:Ht.
        + eexists. split; [reflexivity |]. split; [reflexivity | done].
        + apply String.eqb_neq in Ht.
          destruct (JSON_parse t) as [v |] eqn:Hp.
          * eexists. split; [reflexivity |]. split; [reflexivity |].
            intros [= Ht']. contradiction.
          * exfalso. refine (Hdec r t _ Hm Ht Hp). apply elem_of_cons. by left.
      - eexists. split; [reflexivity |]. split; [reflexivity | discriminate]. }
    destruct Hr as (m & Hm & Hid & Hme).
    exists (m :: ms). cbn. rewrite Hm, Hms. cbn. split; [reflexivity |].
    split; [by rewrite Hid, Hids |].
    intros r' Hin Hr'. apply elem_of_cons in Hin as [-> | Hin].
    + rewrite <- (Hme Hr'). apply elem_of_cons. by left.
    + apply elem_of_cons. right. by apply Hempty.
Qed.

(** Claim C9 (amended): let the selected rows be the first
    [maxHistoryLength] rows of the conversation in ascending timestamp
    order.  When one selected row has a non-empty metadata text that
    [JSON.parse] rejects, [getConversationHistory] returns [[]] (as it
    does when the [SELECT] fails).  When the [SELECT] succeeds and every
    selected row's metadata is absent, empty or parseable, whatever the
    rows beyond the [LIMIT] hold, it returns one message per selected row,
    in order, and a row with empty metadata gives a message without
    metadata: the empty string is skipped, not parsed, and rows beyond
    the [LIMIT] are never parsed. *)
Theorem getConversationHistory_bad_metadata cap c tbl :
  let sel := sql_limit cap (order_by_timestamp_asc (where_conversation c tbl)) in
  (forall sel_f r s, r ∈ sel -> row_metadata r = Some s -> s <> "" -> JSON_parse s = None ->
     getConversationHistory JSON_parse cap sel_f c tbl = []) /\
  ((forall r s, r ∈ sel -> row_metadata r = Some s -> s <> "" -> JSON_parse s <> None) ->
   map id (getConversationHistory JSON_parse cap false c tbl) = map row_id sel /\
   (forall r, r ∈ sel -> row_metadata r = Some "" ->
      mk_message (row_id r) (row_conversation_id r) (row_role r) (row_content r)
                 (row_timestamp r) None ∈ getConversationHistory JSON_parse cap false c tbl)).
Proof.
  intros sel. unfold getConversationHistory, sql_select_history.
  split.
  - intros [|] r s Hin Hm Hs Hp; [reflexivity |]. cbn. fold sel.
    assert (Hr : row_to_message JSON_parse r = Throw "SyntaxError: JSON.parse").
    { unfold row_to_message. rewrite Hm.
      replace (String.eqb s "") with false by (symmetry; by apply String.eqb_neq).
      by rewrite Hp. }
    destruct (map_result_throws _ r _ Hin Hr) as [e ->]. reflexivity.
  - cbn. fold sel. intros Hdec. destruct (map_result_decodable sel Hdec) as (ms & -> & Hids & Hempty).
    split; [exact Hids | exact Hempty].
Qed.

End History.

Lemma getConversationHistory_bounded_sorted_witness :
  (length (getConversationHistory toy_parse 50 false "c1"
             [user_row "m1" ts1 "a" None; user_row "m2" ts2 "b" (Some "{}")])
     <= Z.to_nat 50)%nat /\
  getConversationHistory toy_parse 50 false "never-seen" [user_row "m1" ts1 "a" None] = [].
Proof.
  split.
  - exact (proj1 (getConversationHistory_bounded_sorted unit toy_parse 50 false "c1" _
                    ltac:(lia))).
  - destruct (getConversationHistory_bounded_sorted unit toy_parse 50 false "never-seen"
                [user_row "m1" ts1 "a" None] ltac:(lia)) as (_ & _ & H & _).
    apply H. vm_compute. reflexivity.
Defined.

Lemma deleteConversation_spec_witness :
  fst (deleteConversation false "c1" (append 50 "m1" ts1 "hi" [])) = Ok tt /\
  getConversationHistory toy_parse 50 false "c1"
    (snd (deleteConversation false "c1" (append 50 "m1" ts1 "hi" []))) = [] /\
  fst (deleteConversation false "c1"
         (snd (deleteConversation false "c1" (append 50 "m1" ts1 "hi" [])))) = Ok tt /\
  deleteConversation true "c1" (append 50 "m1" ts1 "hi" []) =
    (Throw "Failed to delete conversation", append 50 "m1" ts1 "hi" []).
Proof.
  destruct (deleteConversation_spec unit toy_parse false "c1" (append 50 "m1" ts1 "hi" []))
    as [_ H].
  destruct (H eq_refl) as (H1 & _ & H3 & _ & H5).
  split; [exact H1 |]. split; [apply H3 |]. split; [rewrite H5; reflexivity |].
  apply (deleteConversation_spec unit toy_parse true "c1" _). reflexivity.
Defined.

Lemma getConversationHistory_bad_metadata_witness :
  getConversationHistory toy_parse 50 false "c1"
    [user_row "m1" ts1 "a" None; user_row "m2" ts2 "b" (Some "{bad")] = [] /\
  map id (getConversationHistory toy_parse 2 false "c1"
    [user_row "m1" ts1 "a" (Some ""); user_row "m2" ts2 "b" None;
     user_row "m3" ts3 "c" (Some "{bad")]) = ["m1"; "m2"].
Proof.
  split.
  - apply (proj1 (getConversationHistory_bad_metadata unit toy_parse 50 "c1" _) false
             (user_row "m2" ts2 "b" (Some "{bad")) "{bad").
    + apply (bool_decide_unpack _). vm_compute. reflexivity.
    + reflexivity.
    + discriminate.
    + reflexivity.
  - refine (proj1 (proj2 (getConversationHistory_bad_metadata unit toy_parse 2 "c1" _) _)).
    vm_compute. intros r t Hin. repeat (apply elem_of_cons in Hin as [-> | Hin]);
      [intros [= <-]; done | discriminate | by apply not_elem_of_nil in Hin].
Defined.

(** Claim C9 fails twice: metadata [""] is not JSON but is skipped by
    [if (row.metadata)], and an invalid row beyond the [LIMIT] (possible
    once a retention step has failed) is never parsed. *)
Lemma getConversationHistory_bad_metadata_not_read :
  toy_parse "" = None /\
  length (getConversationHistory toy_parse 50 false "c1"
            [user_row "m1" ts1 "a" (Some "")]) = 1%nat /\
  toy_parse "{bad" = None /\
  length (getConversationHistory toy_parse 2 false "c1"
            [user_row "m1" ts1 "a" None; user_row "m2" ts2 "b" None;
             user_row "m3" ts3 "c" (Some "{bad")]) = 2%nat.
Proof. vm_compute. repeat split. Qed.

Lemma sum_list_map_add {A} (f g : A -> nat) (l : list A) :
  sum_list (map (fun x => f x + g x) l) = sum_list (map f l) + sum_list (map g l).
Proof. induction l as [| x l IH]; cbn; [done | rewrite IH; lia]. Qed.

Lemma sum_list_map_zero {A} (l : list A) : sum_list (map (fun _ => 0%nat) l) = 0%nat.
Proof. induction l; cbn; lia. Qed.

Lemma sum_list_map_zero_on (ks : list string) (k : string) :
  k ∉ ks ->
  sum_list (map (fun c => if decide (k = c) then 1%nat else 0%nat) ks) = 0%nat.
Proof.
  induction ks as [| c ks IH]; intros Hn; cbn; [done |].
  case_decide as Hkc; [subst; set_solver |]. apply IH. set_solver.
Qed.

Lemma sum_indicator (ks : list string) (k : string) :
  NoDup ks -> k ∈ ks ->
  sum_list (map (fun c => if decide (k = c) then 1%nat else 0%nat) ks) = 1%nat.
Proof.
  induction ks as [| c ks IH]; intros Hnd Hin; [by apply not_elem_of_nil in Hin |].
  apply NoDup_cons in Hnd as [Hc Hnd]. cbn.
  case_decide as Hkc.
  - subst c. rewrite (sum_list_map_zero_on ks k Hc). lia.
  - apply elem_of_cons in Hin as [-> | Hin]; [contradiction |]. rewrite IH; auto.
Qed.

(** Every row belongs to exactly one conversation, so the row count is
    the sum of the per-conversation counts. *)
Lemma length_sum_by_conversation (ks : list string) (tbl : table) :
  NoDup ks -> (forall r, r ∈ tbl -> row_conversation_id r ∈ ks) ->
  length tbl = sum_list (map (fun c => length (where_conversation c tbl)) ks).
Proof.
  intros Hnd. induction tbl as [| r tbl IH]; intros Hks.
  - cbn. symmetry. apply sum_list_map_zero.
  - transitivity (sum_list (map (fun c =>
        (if decide (row_conversation_id r = c) then 1%nat else 0%nat) +
        length (where_conversation c tbl)) ks)).
    + rewrite sum_list_map_add, sum_indicator; [| done | apply Hks; set_solver].
      cbn. rewrite <- IH; [done |]. intros x Hx. apply Hks. set_solver.
    + f_equal. apply map_ext. intros c. unfold where_conversation.
      rewrite filter_cons. case_decide; cbn; lia.
Qed.

(** Claim C7 (amended): when both [COUNT] queries succeed,
    [totalConversations] is the number of distinct conversation ids among
    the rows stored now (an id counts exactly when the conversation still
    has rows) and [totalMessages] is the number of rows, which is the sum
    of the rows retained by each conversation; when either query fails
    the result is [{0, 0}]. *)
Theorem getConversationStats_spec f1 f2 tbl :
  (f1 = false -> f2 = false ->
     totalConversations (getConversationStats f1 f2 tbl) =
       length (remove_dups (map row_conversation_id tbl)) /\
     (forall c, c ∈ remove_dups (map row_conversation_id tbl) <->
                where_conversation c tbl <> []) /\
     totalMessages (getConversationStats f1 f2 tbl) = length tbl /\
     length tbl = sum_list (map (fun c => length (where_conversation c tbl))
                                (remove_dups (map row_conversation_id tbl)))) /\
  (f1 = true \/ f2 = true -> getConversationStats f1 f2 tbl = mk_stats 0 0).
Proof.
  split.
  2: { intros [-> | ->]; [reflexivity | by destruct f1]. }
  intros -> ->. cbn. split; [done |]. split; [| split; [done |]].
  - intros c. rewrite elem_of_remove_dups. unfold where_conversation. split.
    + intros Hc Hnil. apply list_elem_of_In, in_map_iff in Hc as (r & Hr & Hin).
      apply list_elem_of_In in Hin. exact (filter_nil_not_elem_of _ _ r Hnil Hr Hin).
    + intros Hne.
      destruct (filter (fun r => row_conversation_id r = c) tbl) as [| r rs] eqn:Hw;
        [contradiction |].
      assert (Hr : r ∈ filter (fun r => row_conversation_id r = c) tbl)
        by (rewrite Hw; left).
      apply list_elem_of_filter in Hr as [Hp Hin].
      apply list_elem_of_In, in_map_iff. exists r. split; [exact Hp |].
      by apply list_elem_of_In.
  - apply length_sum_by_conversation; [apply NoDup_remove_dups |].
    intros r Hr. apply elem_of_remove_dups, list_elem_of_In, in_map.
    by apply list_elem_of_In.
Qed.

Lemma getConversationStats_spec_witness :
  getConversationStats false false
    [user_row "m1" ts1 "a" None; mk_row "m2" "c2" User "b" ts2 None;
     user_row "m3" ts3 "c" None] = mk_stats 2 3 /\
  getConversationStats true false [user_row "m1" ts1 "a" None] = mk_stats 0 0.
Proof.
  destruct (getConversationStats_spec false false
              [user_row "m1" ts1 "a" None; mk_row "m2" "c2" User "b" ts2 None;
               user_row "m3" ts3 "c" None]) as [H _].
  destruct (H eq_refl eq_refl) as (H1 & _ & H3 & _).
  split.
  - destruct (getConversationStats false false _) as [tc tm] eqn:Hs.
    cbn in H1, H3. rewrite H1, H3. reflexivity.
  - apply (getConversationStats_spec true false _). left. reflexivity.
Defined.

(** Claim C7 fails for "ever stored": after ["c1"] is stored and then
    deleted, [totalConversations] is 0. *)
Lemma getConversationStats_forgets_deleted :
  fst (storeMessage toy_stringify 50 false false "m1" ts1 "c1" User "hi" None []) =
    Ok (mk_message "m1" "c1" User "hi" ts1 None) /\
  totalConversations
    (getConversationStats false false
       (snd (deleteConversation false "c1" (append 50 "m1" ts1 "hi" [])))) = 0%nat.
Proof. vm_compute. split; reflexivity. Qed.

Section Insertion.

Variable json : Type.
Variable JSON_stringify : json -> string.

(** Claim C10: when the [INSERT] fails (D1 throws, or the generated id is
    already a primary key), [storeMessage] throws
    "Failed to store conversation message", returns no message, and the
    table is unchanged; the retention step is not reached. *)
Theorem storeMessage_insert_failure cap ins_f cl_f mid ts c rl body md tbl :
  ins_f = true \/ mid ∈ map row_id tbl ->
  storeMessage JSON_stringify cap ins_f cl_f mid ts c rl body md tbl =
    (Throw "Failed to store conversation message", tbl).
Proof.
  intros Hf. unfold storeMessage, sql_insert.
  destruct ins_f; [reflexivity |].
  destruct Hf as [Hf | Hf]; [discriminate |]. cbn.
  by rewrite bool_decide_eq_true_2.
Qed.

End Insertion.

Lemma storeMessage_insert_failure_witness :
  storeMessage toy_stringify 50 true false "m1" ts1 "c1" User "hi" None [] =
    (Throw "Failed to store conversation message", []) /\
  storeMessage toy_stringify 50 false false "m1" ts2 "c1" User "again" None
    [user_row "m1" ts1 "hi" None] =
    (Throw "Failed to store conversation message", [user_row "m1" ts1 "hi" None]).
Proof.
  split.
  - apply storeMessage_insert_failure. left. reflexivity.
  - apply storeMessage_insert_failure. right.
    apply (bool_decide_unpack _). vm_compute. reflexivity.
Defined.

End ConversationProofs.

Module RLX.
Import RateLimit Invariants RateLimitProofs.
Local Open Scope Z_scope.

Lemma read_count_lookup f now key kv1 kv2 ws :
  kv1 !! key = kv2 !! key -> read_count f now key kv1 ws = read_count f now key kv2 ws.
Proof. intros H. unfold read_count, kv_get. by rewrite H. Qed.

Lemma read_count_stored f now key kv ws c :
  read_count f now key kv ws = Ok c ->
  c = 0 \/ exists e, kv !! key = Some e /\ kv_value e = CounterRec c ws.
Proof.
  intros H. destruct (Z.eq_dec c 0) as [-> | Hc]; [by left |].
  right. exact (read_count_nonzero f now key kv ws c H Hc).
Qed.

(** The three outcomes of [checkRateLimit]. *)
Lemma checkRateLimit_cases limit f now id kv :
  (exists c, read_count f now (rate_limit_key id) kv (window_start now) = Ok c /\
     c < limit /\ put_fails f = false /\
     checkRateLimit limit f now id kv =
       (mk_info (limit - c - 1) (window_start now + 60000) false,
        <[rate_limit_key id :=
            mk_kv_entry (CounterRec (c + 1) (window_start now)) (now + 120 * 1000)]> kv)) \/
  (exists c, read_count f now (rate_limit_key id) kv (window_start now) = Ok c /\
     limit <= c /\
     checkRateLimit limit f now id kv = (mk_info 0 (window_start now + 60000) true, kv)) \/
  checkRateLimit limit f now id kv =
    (mk_info (limit - 1) (window_start now + 60000) false, kv).
Proof.
  unfold checkRateLimit.
  destruct (read_count f now (rate_limit_key id) kv (window_start now)) as [c | msg] eqn:Hr.
  - rewrite (checkRateLimit_try_read limit f now id kv c Hr). cbn zeta.
    destruct (Z.max 0 (limit - c) =? 0) eqn:Hb.
    + apply Z.eqb_eq in Hb. right; left. exists c. split; [done |]. split; [lia |].
      reflexivity.
    + apply Z.eqb_neq in Hb. unfold kv_put. destruct (put_fails f) eqn:Hp.
      * right; right. reflexivity.
      * left. exists c. split; [done |]. split; [lia |]. split; [done |]. cbn.
        do 3 f_equal. lia.
  - right; right. unfold checkRateLimit_try. rewrite Hr. reflexivity.
Qed.

Lemma getRateLimitStatus_read limit f now id kv :
  getRateLimitStatus limit f now id kv =
    match read_count f now (rate_limit_key id) kv (window_start now) with
    | Ok c => mk_info (Z.max 0 (limit - c)) (window_start now + 60000)
                      (Z.max 0 (limit - c) =? 0)
    | Throw _ => mk_info limit (window_start now + 60000) false
    end.
Proof.
  unfold getRateLimitStatus, getRateLimitStatus_try.
  by destruct (read_count f now (rate_limit_key id) kv (window_start now)).
Qed.

Lemma window_start_bounds now :
  window_start now <= now < window_start now + 60000 /\ window_start now mod 60000 = 0.
Proof. unfold window_start. split; [Z.div_mod_to_equations; lia | apply Z.mod_mul; lia]. Qed.

(** The reset time reported by [checkRateLimit] is the end of the
    minute-aligned window containing [now], whatever the KV faults, and
    [getRateLimitStatus] reports the same reset time. *)
Theorem rate_limit_reset_time_window limit f f' now id kv :
  resetTime (fst (checkRateLimit limit f now id kv)) - 60000 <= now <
    resetTime (fst (checkRateLimit limit f now id kv)) /\
  resetTime (fst (checkRateLimit limit f now id kv)) mod 60000 = 0 /\
  resetTime (getRateLimitStatus limit f' now id kv) =
    resetTime (fst (checkRateLimit limit f now id kv)).
Proof.
  assert (Hr : resetTime (fst (checkRateLimit limit f now id kv)) = window_start now + 60000).
  { destruct (checkRateLimit_cases limit f now id kv)
      as [(c & _ & _ & _ & ->) | [(c & _ & _ & ->) | ->]]; reflexivity. }
  rewrite Hr. destruct (window_start_bounds now) as [Hb Hm].
  split; [lia |]. split.
  - rewrite Z.add_mod by lia. rewrite Hm. reflexivity.
  - rewrite getRateLimitStatus_read.
    by destruct (read_count f' now (rate_limit_key id) kv (window_start now)).
Qed.

(** [checkRateLimit] writes at most the counter key of its own
    identifier: every other KV key keeps its entry. *)
Theorem checkRateLimit_frame limit f now id kv k :
  k <> rate_limit_key id ->
  snd (checkRateLimit limit f now id kv) !! k = kv !! k.
Proof.
  intros Hk.
  destruct (checkRateLimit_cases limit f now id kv)
    as [(c & _ & _ & _ & ->) | [(c & _ & _ & ->) | ->]]; cbn [snd]; [| done | done].
  by rewrite lookup_insert_ne by congruence.
Qed.

Lemma checkRateLimit_frame_witness :
  snd (checkRateLimit 3 no_kv_faults 600005 "u1"
         (<[rate_limit_key "u2" := mk_kv_entry (CounterRec 2 600000) 700000]> ∅))
    !! rate_limit_key "u2" = Some (mk_kv_entry (CounterRec 2 600000) 700000).
Proof.
  rewrite (checkRateLimit_frame 3 no_kv_faults 600005 "u1" _ (rate_limit_key "u2"))
    by (vm_compute; discriminate).
  vm_compute. reflexivity.
Defined.

Lemma fst_checkRateLimit_read limit f now id kv1 kv2 :
  kv1 !! rate_limit_key id = kv2 !! rate_limit_key id ->
  fst (checkRateLimit limit f now id kv1) = fst (checkRateLimit limit f now id kv2).
Proof.
  intros H. unfold checkRateLimit, checkRateLimit_try.
  rewrite (read_count_lookup f now _ kv1 kv2 _ H).
  destruct (read_count f now (rate_limit_key id) kv2 (window_start now)); cbn; [| done].
  destruct (Z.max 0 (limit - a) =? 0); cbn; [done |].
  unfold kv_put. by destruct (put_fails f).
Qed.

(** A check for one identifier changes neither the status nor the next
    check result of a different identifier. *)
Theorem rate_limit_identifiers_isolated limit f f' now now' id1 id2 kv :
  id1 <> id2 ->
  getRateLimitStatus limit f' now' id2 (snd (checkRateLimit limit f now id1 kv)) =
    getRateLimitStatus limit f' now' id2 kv /\
  fst (checkRateLimit limit f' now' id2 (snd (checkRateLimit limit f now id1 kv))) =
    fst (checkRateLimit limit f' now' id2 kv).
Proof.
  intros Hne.
  assert (Hk : snd (checkRateLimit limit f now id1 kv) !! rate_limit_key id2 =
               kv !! rate_limit_key id2).
  { apply checkRateLimit_frame. unfold rate_limit_key. intros Heq.
    apply (inj (String.append "rate_limit:")) in Heq. congruence. }
  split.
  - rewrite !getRateLimitStatus_read. by rewrite (read_count_lookup f' now' _ _ kv _ Hk).
  - by apply fst_checkRateLimit_read.
Qed.

Lemma rate_limit_identifiers_isolated_witness :
  getRateLimitStatus 3 no_kv_faults 600010 "ip:1.2.3.4"
    (snd (checkRateLimit 3 no_kv_faults 600005 "user:alice" ∅)) = mk_info 3 660000 false.
Proof.
  rewrite (proj1 (rate_limit_identifiers_isolated 3 no_kv_faults no_kv_faults 600005 600010
                    "user:alice" "ip:1.2.3.4" ∅ ltac:(discriminate))).
  vm_compute. reflexivity.
Defined.

(** If every stored counter lies between 0 and the limit, this still
    holds after a [checkRateLimit]. *)
Theorem checkRateLimit_counters_within limit f now id kv :
  counters_within limit kv -> counters_within limit (snd (checkRateLimit limit f now id kv)).
Proof.
  intros Hkv.
  destruct (checkRateLimit_cases limit f now id kv)
    as [(c & Hr & Hlt & _ & ->) | [(c & _ & _ & ->) | ->]]; cbn [snd]; [| done | done].
  assert (Hc : 0 <= c).
  { destruct (read_count_stored _ _ _ _ _ c Hr) as [-> | (e & He & Hv)]; [lia |].
    exact (proj1 (Hkv _ _ _ _ He Hv)). }
  intros k e c' w Hk Hv. destruct (decide (k = rate_limit_key id)) as [-> | Hne].
  - rewrite lookup_insert_eq in Hk. simplify_eq/=. lia.
  - rewrite lookup_insert_ne in Hk by congruence. exact (Hkv _ _ _ _ Hk Hv).
Qed.


Lemma counters_within_kv_u1_two : counters_within 3 kv_u1_two.
Proof.
  intros k e c w Hk Hv. unfold kv_u1_two in Hk.
  apply lookup_insert_Some in Hk as [[_ <-] | [_ Hk]].
  - cbn in Hv. injection Hv as <- _. lia.
  - by rewrite lookup_empty in Hk.
Qed.

Lemma checkRateLimit_counters_within_witness :
  counters_within 3 (snd (checkRateLimit 3 no_kv_faults 610000 "u1" kv_u1_two)).
Proof.
  apply (checkRateLimit_counters_within 3 no_kv_faults 610000 "u1" kv_u1_two).
  intros k e c w Hk Hv. unfold kv_u1_two in Hk.
  apply lookup_insert_Some in Hk as [[_ <-] | [_ Hk]].
  - cbn in Hv. injection Hv as <- _. lia.
  - by rewrite lookup_empty in Hk.
Defined.

Lemma read_count_within limit f now key kv ws c :
  counters_within limit kv -> read_count f now key kv ws = Ok c -> 0 <= c <= limit \/ c = 0.
Proof.
  intros Hkv Hr. destruct (read_count_stored _ _ _ _ _ c Hr) as [-> | (e & He & Hv)];
    [by right | left; exact (Hkv _ _ _ _ He Hv)].
Qed.

(** With a positive limit and counters within it, the [remaining] of a
    check lies in [0, limit - 1] and that of a status read in
    [0, limit]. *)
Theorem rate_limit_remaining_bounds limit f f' now id kv :
  0 < limit -> counters_within limit kv ->
  0 <= remaining (fst (checkRateLimit limit f now id kv)) <= limit - 1 /\
  0 <= remaining (getRateLimitStatus limit f' now id kv) <= limit.
Proof.
  intros Hl Hkv. split.
  - destruct (checkRateLimit_cases limit f now id kv)
      as [(c & Hr & Hlt & _ & ->) | [(c & _ & _ & ->) | ->]]; cbn; [| lia | lia].
    destruct (read_count_within _ _ _ _ _ _ c Hkv Hr); lia.
  - rewrite getRateLimitStatus_read.
    destruct (read_count f' now (rate_limit_key id) kv (window_start now)) as [c |] eqn:Hr;
      cbn; [| lia].
    destruct (read_count_within _ _ _ _ _ _ c Hkv Hr); lia.
Qed.

Lemma rate_limit_remaining_bounds_witness :
  remaining (fst (checkRateLimit 3 (mk_kv_faults false true) 610000 "u1" kv_u1_two)) = 2 /\
  remaining (getRateLimitStatus 3 no_kv_faults 610000 "u1" kv_u1_two) = 1 /\
  0 <= remaining (fst (checkRateLimit 3 no_kv_faults 610000 "u1" kv_u1_two)) <= 3 - 1.
Proof.
  split; [vm_compute; reflexivity |]. split; [vm_compute; reflexivity |].
  exact (proj1 (rate_limit_remaining_bounds 3 no_kv_faults no_kv_faults 610000 "u1" kv_u1_two
                  ltac:(lia) counters_within_kv_u1_two)).
Defined.

Lemma checkRateLimit_admitted limit f now id kv c :
  read_count f now (rate_limit_key id) kv (window_start now) = Ok c -> c < limit ->
  put_fails f = false ->
  checkRateLimit limit f now id kv =
    (mk_info (limit - c - 1) (window_start now + 60000) false,
     <[rate_limit_key id :=
         mk_kv_entry (CounterRec (c + 1) (window_start now)) (now + 120 * 1000)]> kv).
Proof.
  intros Hr Hlt Hp. unfold checkRateLimit.
  rewrite (checkRateLimit_try_read limit f now id kv c Hr). cbn zeta.
  replace (Z.max 0 (limit - c) =? 0) with false by (symmetry; apply Z.eqb_neq; lia).
  unfold kv_put. rewrite Hp. cbn. do 3 f_equal. lia.
Qed.

(** After an admitted check without KV faults, a status read later in
    the same window reports the remaining count and reset time the
    check returned, and is blocked exactly when none remains. *)
Theorem getRateLimitStatus_after_admitted limit f f' now now' id kv c :
  get_fails f = false -> put_fails f = false ->
  window_count now (rate_limit_key id) kv c -> c < limit ->
  get_fails f' = false -> now <= now' -> window_start now' = window_start now ->
  getRateLimitStatus limit f' now' id (snd (checkRateLimit limit f now id kv)) =
    mk_info (remaining (fst (checkRateLimit limit f now id kv)))
            (resetTime (fst (checkRateLimit limit f now id kv)))
            (remaining (fst (checkRateLimit limit f now id kv)) =? 0).
Proof.
  intros Hg Hp Hc Hlt Hg' Hle Hw.
  rewrite (checkRateLimit_admitted limit f now id kv c) by
    (try apply read_count_window_count; assumption).
  cbn [fst snd remaining resetTime].
  rewrite getRateLimitStatus_read. unfold read_count, kv_get. rewrite Hg'. cbn [rbind].
  rewrite lookup_insert_eq. cbn [kv_expires_at kv_value].
  destruct (window_start_bounds now') as [Hb' _]. destruct (window_start_bounds now) as [Hb _].
  replace (now' <? now + 120 * 1000) with true by (symmetry; apply Z.ltb_lt; lia).
  cbn. rewrite Hw, Z.eqb_refl.
  replace (Z.max 0 (limit - (c + 1))) with (limit - c - 1) by lia. reflexivity.
Qed.

Lemma getRateLimitStatus_after_admitted_witness :
  getRateLimitStatus 3 no_kv_faults 650000 "u1"
    (snd (checkRateLimit 3 no_kv_faults 610000 "u1" kv_u1_two)) = mk_info 0 660000 true.
Proof.
  assert (Hc : window_count 610000 (rate_limit_key "u1") kv_u1_two 2)
    by (apply (wc_current _ _ _ (mk_kv_entry (CounterRec 2 600000) 720005));
        [vm_compute; reflexivity | simpl; lia | vm_compute; reflexivity]).
  rewrite (getRateLimitStatus_after_admitted 3 no_kv_faults no_kv_faults 610000 650000 "u1"
             kv_u1_two 2 eq_refl eq_refl Hc ltac:(lia) eq_refl ltac:(lia)
             ltac:(vm_compute; reflexivity)).
  vm_compute. reflexivity.
Defined.

(** Without KV faults, a check answers what a status read on the same
    store reports: the same info when blocked, and otherwise one fewer
    remaining request, not blocked. *)
Theorem checkRateLimit_agrees_with_status limit f now id kv c :
  get_fails f = false -> put_fails f = false ->
  window_count now (rate_limit_key id) kv c ->
  fst (checkRateLimit limit f now id kv) =
    (if blocked (getRateLimitStatus limit f now id kv)
     then getRateLimitStatus limit f now id kv
     else mk_info (remaining (getRateLimitStatus limit f now id kv) - 1)
                  (resetTime (getRateLimitStatus limit f now id kv)) false).
Proof.
  intros Hg Hp Hc.
  pose proof (read_count_window_count f now _ kv c Hg Hc) as Hr.
  rewrite getRateLimitStatus_read, Hr. cbn [blocked remaining resetTime].
  destruct (Z.max 0 (limit - c) =? 0) eqn:Hb.
  - apply Z.eqb_eq in Hb. unfold checkRateLimit.
    rewrite (checkRateLimit_try_read limit f now id kv c Hr). cbn zeta.
    rewrite Hb. cbn. reflexivity.
  - apply Z.eqb_neq in Hb.
    rewrite (checkRateLimit_admitted limit f now id kv c Hr ltac:(lia) Hp).
    cbn. f_equal. lia.
Qed.

Lemma checkRateLimit_agrees_with_status_witness :
  getRateLimitStatus 3 no_kv_faults 610000 "u1" kv_u1_two = mk_info 1 660000 false /\
  fst (checkRateLimit 3 no_kv_faults 610000 "u1" kv_u1_two) = mk_info 0 660000 false.
Proof.
  assert (Hc : window_count 610000 (rate_limit_key "u1") kv_u1_two 2)
    by (apply (wc_current _ _ _ (mk_kv_entry (CounterRec 2 600000) 720005));
        [vm_compute; reflexivity | simpl; lia | vm_compute; reflexivity]).
  split; [vm_compute; reflexivity |].
  rewrite (checkRateLimit_agrees_with_status 3 no_kv_faults 610000 "u1" kv_u1_two 2
             eq_refl eq_refl Hc).
  vm_compute. reflexivity.
Defined.
End RLX.

Module DBX.
Import Conversations Fixtures ConversationProofs.

Lemma sql_insert_NoDup fails r tbl tbl' :
  NoDup (map row_id tbl) -> sql_insert fails r tbl = Ok tbl' -> NoDup (map row_id tbl').
Proof.
  intros Hnd. unfold sql_insert. destruct fails; [discriminate |].
  case_bool_decide as Hin; [discriminate |]. intros [= <-].
  rewrite map_app. apply NoDup_app. split; [done |]. split; [| apply NoDup_singleton].
  intros x Hx Hx'. apply list_elem_of_singleton in Hx'. subst x. contradiction.
Qed.

Section Ids.
Variable json : Type.
Variable JSON_stringify : json -> string.

(** Storing a message and deleting a conversation keep the message ids
    of the table distinct. *)
Theorem conversation_ids_stay_unique cap ins_f cl_f del_f mid ts c rl body md tbl :
  NoDup (map row_id tbl) ->
  NoDup (map row_id (snd (storeMessage JSON_stringify cap ins_f cl_f mid ts c rl body md tbl))) /\
  NoDup (map row_id (snd (deleteConversation del_f c tbl))).
Proof.
  intros Hnd. split.
  - unfold storeMessage.
    destruct (sql_insert ins_f _ tbl) as [tbl1 |] eqn:Hi; cbn [snd]; [| done].
    apply cleanup_NoDup. exact (sql_insert_NoDup _ _ _ _ Hnd Hi).
  - unfold deleteConversation, sql_delete_conversation.
    destruct del_f; cbn; [done |]. by apply NoDup_map_filter.
Qed.

Lemma store_other_conversations cap ins_f cl_f mid ts c rl body md tbl c' :
  c' <> c ->
  where_conversation c'
    (snd (storeMessage JSON_stringify cap ins_f cl_f mid ts c rl body md tbl)) =
  where_conversation c' tbl.
Proof.
  intros Hne. unfold storeMessage.
  destruct (sql_insert ins_f _ tbl) as [tbl1 |] eqn:Hi; cbn [snd]; [| reflexivity].
  unfold sql_insert in Hi. destruct ins_f; [discriminate |].
  case_bool_decide; [discriminate |]. injection Hi as <-.
  rewrite cleanup_other_conversation by exact Hne.
  unfold where_conversation. rewrite filter_app.
  rewrite (filter_singleton_False _ (mk_row mid c rl body ts (option_map JSON_stringify md)) [])
    by (cbn; congruence).
  by rewrite app_nil_r.
Qed.

(** [storeMessage] (insert and cleanup) leaves the rows of every other
    conversation as they were. *)
Theorem storeMessage_other_conversations cap ins_f cl_f mid ts c rl body md tbl c' :
  c' <> c ->
  where_conversation c'
    (snd (storeMessage JSON_stringify cap ins_f cl_f mid ts c rl body md tbl)) =
  where_conversation c' tbl.
Proof. apply store_other_conversations. Qed.
End Ids.

Lemma conversation_ids_stay_unique_witness :
  NoDup (map row_id (snd (storeMessage toy_stringify 2 false false "m1" ts2 "c1" User "dup" None
                            [user_row "m1" ts1 "a" None]))).
Proof.
  apply (conversation_ids_stay_unique unit toy_stringify 2 false false false "m1" ts2 "c1" User
           "dup" None [user_row "m1" ts1 "a" None]).
  apply NoDup_singleton.
Defined.

Lemma storeMessage_other_conversations_witness :
  where_conversation "c2"
    (snd (storeMessage toy_stringify 1 false false "m3" ts3 "c1" User "x" None
            [mk_row "m1" "c2" User "a" ts1 None; user_row "m2" ts2 "b" None])) =
  [mk_row "m1" "c2" User "a" ts1 None].
Proof.
  rewrite (storeMessage_other_conversations unit toy_stringify 1 false false "m3" ts3 "c1" User
             "x" None _ "c2" ltac:(discriminate)).
  vm_compute. reflexivity.
Defined.

(** A retention pass over a conversation within the limit deletes nothing. *)
Lemma cleanup_within_limit (n : Z) fails c tbl :
  (length (where_conversation c tbl) <= Z.to_nat n)%nat ->
  cleanupConversation n fails c tbl = tbl.
Proof.
  intros Hlen. unfold cleanupConversation, sql_delete_all_but_recent.
  destruct fails; [reflexivity |]. cbn.
  apply filter_all. intros r Hr.
  destruct (decide (row_conversation_id r = c)) as [Hc | Hc]; [right | by left].
  assert (Hin : r ∈ where_conversation c tbl) by (apply list_elem_of_filter; done).
  unfold sql_limit. destruct (n <? 0)%Z.
  - apply list_elem_of_In, in_map. apply list_elem_of_In.
    unfold order_by_timestamp_desc. by rewrite merge_sort_Permutation.
  - rewrite take_ge.
    2: { unfold order_by_timestamp_desc. rewrite (Permutation_length (merge_sort_Permutation _ _)).
         exact Hlen. }
    apply list_elem_of_In, in_map. apply list_elem_of_In.
    unfold order_by_timestamp_desc. by rewrite merge_sort_Permutation.
Qed.

(** Cleaning up a conversation that holds at most [n] messages changes
    nothing, and a successful cleanup is idempotent. *)
Theorem cleanupConversation_stable (n : Z) fails c tbl :
  (0 <= n)%Z -> NoDup (map row_id tbl) ->
  ((length (where_conversation c tbl) <= Z.to_nat n)%nat ->
     cleanupConversation n fails c tbl = tbl) /\
  cleanupConversation n false c (cleanupConversation n false c tbl) =
    cleanupConversation n false c tbl.
Proof.
  intros Hn Hnd. split; [apply cleanup_within_limit |].
  apply cleanup_within_limit.
  rewrite (Permutation_length (cleanup_keeps_recent n c tbl Hn Hnd)), length_take. lia.
Qed.

Lemma cleanupConversation_stable_witness :
  cleanupConversation 2 false "c1"
    (cleanupConversation 2 false "c1"
       [user_row "m1" ts1 "a" None; user_row "m2" ts2 "b" None; user_row "m3" ts3 "c" None]) =
  [user_row "m2" ts2 "b" None; user_row "m3" ts3 "c" None].
Proof.
  rewrite (proj2 (cleanupConversation_stable 2 false "c1"
                    [user_row "m1" ts1 "a" None; user_row "m2" ts2 "b" None;
                     user_row "m3" ts3 "c" None] ltac:(lia)
                    ltac:(apply (bool_decide_unpack _); vm_compute; reflexivity))).
  vm_compute. reflexivity.
Defined.

Lemma length_split_conversation c (tbl : table) :
  length tbl = (length (where_conversation c tbl) +
                length (filter (fun r => row_conversation_id r <> c) tbl))%nat.
Proof.
  unfold where_conversation. rewrite <- length_app.
  apply Permutation_length. symmetry. apply filter_app_complement.
Qed.

Lemma cleanup_rest (n : Z) fails c tbl :
  filter (fun r => row_conversation_id r <> c) (cleanupConversation n fails c tbl) =
  filter (fun r => row_conversation_id r <> c) tbl.
Proof.
  unfold cleanupConversation, sql_delete_all_but_recent.
  destruct fails; [reflexivity |]. cbn.
  rewrite list_filter_filter. apply list_filter_iff. naive_solver.
Qed.

Section Counting.
Variable json : Type.
Variable JSON_stringify : json -> string.

(** After a [storeMessage] whose insert succeeds, the table's message
    total grows by one minus the messages the cleanup removed: with a
    successful cleanup the conversation ends with min(cap, k + 1)
    messages instead of k; with a failed (swallowed) cleanup nothing is
    removed and the total grows by one. *)
Theorem storeMessage_total_messages cap cl_f mid ts c rl body md tbl :
  (0 < cap)%Z -> NoDup (map row_id tbl) -> mid ∉ map row_id tbl ->
  (cl_f = false ->
   (totalMessages (getConversationStats false false
      (snd (storeMessage JSON_stringify cap false cl_f mid ts c rl body md tbl))) +
    length (where_conversation c tbl))%nat =
   (totalMessages (getConversationStats false false tbl) +
    Nat.min (Z.to_nat cap) (length (where_conversation c tbl) + 1))%nat) /\
  (cl_f = true ->
   totalMessages (getConversationStats false false
     (snd (storeMessage JSON_stringify cap false cl_f mid ts c rl body md tbl))) =
   (totalMessages (getConversationStats false false tbl) + 1)%nat).
Proof.
  intros Hcap Hnd Hfresh.
  rewrite storeMessage_inserted by exact Hfresh. cbn [snd getConversationStats orb totalMessages].
  set (newrow := mk_row mid c rl body ts (option_map JSON_stringify md)).
  split; intros ->.
  2: { cbn. rewrite length_app. cbn. lia. }
  assert (Hnd1 : NoDup (map row_id (tbl ++ [newrow]))).
  { rewrite map_app. apply NoDup_app. split; [done |]. split.
    - intros x Hx Hin. apply list_elem_of_singleton in Hin. subst x. by apply Hfresh.
    - apply NoDup_singleton. }
  rewrite (length_split_conversation c (cleanupConversation cap false c (tbl ++ [newrow]))).
  rewrite (length_split_conversation c tbl).
  rewrite cleanup_rest.
  rewrite (Permutation_length (cleanup_keeps_recent cap c _ ltac:(lia) Hnd1)), length_take.
  unfold order_by_timestamp_desc. rewrite (Permutation_length (merge_sort_Permutation _ _)).
  rewrite where_conversation_app_new by reflexivity.
  rewrite filter_app, (filter_singleton_False _ newrow []) by (cbn; congruence).
  rewrite app_nil_r, !length_app. cbn. lia.
Qed.
End Counting.

Lemma storeMessage_total_messages_witness :
  totalMessages (getConversationStats false false
    (snd (storeMessage toy_stringify 2 false false "m4" ts4 "c1" User "d" None
            [user_row "m1" ts1 "a" None; user_row "m2" ts2 "b" None;
             user_row "m3" ts3 "c" None]))) = 2%nat /\
  totalMessages (getConversationStats false false
    (snd (storeMessage toy_stringify 2 false true "m3" ts3 "c1" User "c" None
            [user_row "m1" ts1 "a" None; user_row "m2" ts2 "b" None]))) = 3%nat.
Proof.
  split.
  - pose proof (proj1 (storeMessage_total_messages unit toy_stringify 2 false "m4" ts4 "c1" User "d" None
                  [user_row "m1" ts1 "a" None; user_row "m2" ts2 "b" None;
                   user_row "m3" ts3 "c" None] ltac:(lia)
                  ltac:(apply (bool_decide_unpack _); vm_compute; reflexivity)
                  ltac:(apply (bool_decide_unpack _); vm_compute; reflexivity)) eq_refl) as H.
    vm_compute in H |- *. lia.
  - rewrite (proj2 (storeMessage_total_messages unit toy_stringify 2 true "m3" ts3 "c1" User "c" None
                  [user_row "m1" ts1 "a" None; user_row "m2" ts2 "b" None] ltac:(lia)
                  ltac:(apply (bool_decide_unpack _); vm_compute; reflexivity)
                  ltac:(apply (bool_decide_unpack _); vm_compute; reflexivity)) eq_refl).
    reflexivity.
Defined.

Section LastMessage.
Variable json : Type.
Variable JSON_stringify : json -> string.
Variable JSON_parse : string -> option json.

Lemma map_result_last {A B} (f : A -> result B) l x ys y :
  map_result f (l ++ [x]) = Ok ys -> f x = Ok y -> last ys = Some y.
Proof.
  revert ys. induction l as [| a l IH]; intros ys; cbn.
  - intros H Hx. rewrite Hx in H. cbn in H. by injection H as <-.
  - destruct (f a) as [b |]; cbn; [| discriminate].
    destruct (map_result f (l ++ [x])) as [ys' |] eqn:Hm; cbn; [| discriminate].
    intros [= <-] Hx. specialize (IH ys' eq_refl Hx).
    destruct ys' as [| y' ys']; [discriminate |]. exact IH.
Qed.

Lemma map_result_all_ok {A B} (f : A -> result B) l :
  (forall x, x ∈ l -> exists y, f x = Ok y) -> exists ys, map_result f l = Ok ys.
Proof.
  induction l as [| x l IH]; intros Hall; cbn; [by eexists |].
  destruct (Hall x ltac:(left)) as [y ->]. cbn.
  destruct IH as [ys ->]; [intros z Hz; apply Hall; by right |]. cbn. by eexists.
Qed.

Lemma map_result_length {A B} (f : A -> result B) l ys :
  map_result f l = Ok ys -> length ys = length l.
Proof.
  revert ys. induction l as [| x l IH]; intros ys; cbn; [by intros [= <-] |].
  destruct (f x); cbn; [| discriminate].
  destruct (map_result f l) as [ys' |]; cbn; [| discriminate].
  intros [= <-]. cbn. f_equal. by apply IH.
Qed.

(** The strictly newest row is first in descending timestamp order. *)
Lemma newest_first (old : list row) newrow :
  (forall r, r ∈ old -> ~ String.le (row_timestamp newrow) (row_timestamp r)) ->
  exists rest, merge_sort ts_ge (old ++ [newrow]) = newrow :: rest.
Proof.
  intros Hold.
  assert (Hin : newrow ∈ merge_sort ts_ge (old ++ [newrow]))
    by (rewrite merge_sort_Permutation; set_solver).
  pose proof (StronglySorted_merge_sort ts_ge (old ++ [newrow])) as Hs.
  destruct (merge_sort ts_ge (old ++ [newrow])) as [| x rest] eqn:Hm;
    [by apply not_elem_of_nil in Hin |].
  exists rest. f_equal.
  destruct (decide (x = newrow)) as [-> | Hne]; [done |].
  exfalso. apply elem_of_cons in Hin as [Heq | Hin]; [congruence |].
  assert (Hx : x ∈ old).
  { assert (Hx : x ∈ old ++ [newrow]) by (rewrite <- merge_sort_Permutation, Hm; left).
    apply elem_of_app in Hx as [Hx | Hx]; [done |].
    apply list_elem_of_singleton in Hx. congruence. }
  apply StronglySorted_inv in Hs as [_ Hall].
  apply (Hold x Hx). rewrite Forall_forall in Hall.
  apply (Hall newrow). exact Hin.
Qed.

(** ... and last in ascending order. *)
Lemma newest_last (rows old : list row) newrow :
  newrow ∈ rows -> (forall r, r ∈ rows -> r = newrow \/ r ∈ old) ->
  (forall r, r ∈ old -> ~ String.le (row_timestamp newrow) (row_timestamp r)) ->
  exists init, merge_sort ts_le rows = init ++ [newrow].
Proof.
  intros Hin Hrows Hold.
  assert (Hin' : newrow ∈ merge_sort ts_le rows) by (by rewrite merge_sort_Permutation).
  pose proof (StronglySorted_merge_sort ts_le rows) as Hs.
  destruct (exists_last (l := merge_sort ts_le rows))
    as (init & y & Hm); [intros Hnil; rewrite Hnil in Hin'; by apply not_elem_of_nil in Hin' |].
  exists init. rewrite Hm. f_equal. f_equal.
  destruct (decide (y = newrow)) as [-> | Hne]; [done |].
  exfalso. rewrite Hm in Hin', Hs.
  apply elem_of_app in Hin' as [Hini | Hy]; [| apply list_elem_of_singleton in Hy; congruence].
  assert (Hyo : y ∈ old).
  { assert (Hy : y ∈ rows) by (rewrite <- merge_sort_Permutation, Hm; set_solver).
    destruct (Hrows y Hy); [congruence | done]. }
  apply (Hold y Hyo).
  exact (StronglySorted_app_1_elem_of _ _ _ newrow y Hs Hini ltac:(left)).
Qed.

Lemma history_after_store cap mid ts c rl body md tbl :
  (0 < cap)%Z -> NoDup (map row_id tbl) -> mid ∉ map row_id tbl ->
  (forall r, r ∈ where_conversation c tbl -> ~ String.le ts (row_timestamp r)) ->
  (forall r, r ∈ where_conversation c tbl -> exists m, row_to_message JSON_parse r = Ok m) ->
  (forall m, md = Some m -> JSON_stringify m <> "" /\ JSON_parse (JSON_stringify m) = Some m) ->
  let hist := getConversationHistory JSON_parse cap false c
                (snd (storeMessage JSON_stringify cap false false mid ts c rl body md tbl)) in
  last hist = Some (mk_message mid c rl body ts md) /\
  length hist = Nat.min (Z.to_nat cap) (length (where_conversation c tbl) + 1).
Proof.
  intros Hcap Hnd Hfresh Hts Hparse Hmd hist. unfold hist.
  rewrite storeMessage_inserted by exact Hfresh. cbn [snd].
  set (newrow := mk_row mid c rl body ts (option_map JSON_stringify md)).
  assert (Hnd1 : NoDup (map row_id (tbl ++ [newrow]))).
  { rewrite map_app. apply NoDup_app. split; [done |]. split.
    - intros x Hx Hin. apply list_elem_of_singleton in Hin. subst x. by apply Hfresh.
    - apply NoDup_singleton. }
  set (tbl' := cleanupConversation cap false c (tbl ++ [newrow])).
  pose proof (cleanup_keeps_recent cap c (tbl ++ [newrow]) ltac:(lia) Hnd1) as Hperm.
  fold tbl' in Hperm.
  rewrite where_conversation_app_new in Hperm by reflexivity.
  unfold order_by_timestamp_desc in Hperm.
  destruct (newest_first (where_conversation c tbl) newrow Hts) as [rest Hrest].
  rewrite Hrest in Hperm.
  assert (Hlen : length (where_conversation c tbl') =
                 Nat.min (Z.to_nat cap) (length (where_conversation c tbl) + 1)).
  { rewrite (Permutation_length Hperm), length_take.
    rewrite <- Hrest, (Permutation_length (merge_sort_Permutation _ _)), length_app.
    reflexivity. }
  assert (Hnew : newrow ∈ where_conversation c tbl').
  { rewrite Hperm. destruct (Z.to_nat cap) as [| k] eqn:Hk; [lia |]. cbn. left. }
  assert (Hsub : forall r, r ∈ where_conversation c tbl' ->
                 r = newrow \/ r ∈ where_conversation c tbl).
  { intros r Hr. rewrite Hperm in Hr. apply elem_of_take in Hr as [i [Hi _]].
    apply (list_elem_of_lookup_2 (newrow :: rest)) in Hi.
    rewrite <- Hrest, merge_sort_Permutation in Hi.
    apply elem_of_app in Hi as [Hi | Hi]; [by right |].
    left. by apply list_elem_of_singleton. }
  destruct (newest_last (where_conversation c tbl') (where_conversation c tbl) newrow
              Hnew Hsub Hts) as [init Hinit].
  unfold getConversationHistory, sql_select_history, sql_limit. cbn [rbind].
  replace (cap <? 0)%Z with false by (symmetry; apply Z.ltb_ge; lia).
  unfold order_by_timestamp_asc. rewrite take_ge.
  2: { rewrite (Permutation_length (merge_sort_Permutation _ _)), Hlen. lia. }
  rewrite Hinit.
  assert (Hnewmsg : row_to_message JSON_parse newrow = Ok (mk_message mid c rl body ts md)).
  { unfold row_to_message, newrow. cbn. destruct md as [m |]; cbn; [| reflexivity].
    destruct (Hmd m eq_refl) as [Hne Hp].
    replace (String.eqb (JSON_stringify m) "") with false
      by (symmetry; by apply String.eqb_neq).
    by rewrite Hp. }
  destruct (map_result_all_ok (row_to_message JSON_parse) (init ++ [newrow])) as [ms Hms].
  { intros x Hx. assert (Hx' : x ∈ where_conversation c tbl').
    { rewrite <- merge_sort_Permutation, Hinit. exact Hx. }
    destruct (Hsub x Hx') as [-> | Hold]; [by eexists | by apply Hparse]. }
  rewrite Hms. split; [exact (map_result_last _ _ _ _ _ Hms Hnewmsg) |].
  rewrite (map_result_length _ _ _ Hms), <- Hinit.
  rewrite (Permutation_length (merge_sort_Permutation _ _)). exact Hlen.
Qed.

(** With a positive cap, distinct ids and a fresh id: after a
    [storeMessage] whose insert and cleanup succeed, storing a message
    newer than the conversation's rows (which all parse, with metadata
    that round-trips through JSON), a successful history [SELECT] reads
    back a history that ends with that message and has min(cap, k + 1)
    entries. *)
Theorem getConversationHistory_after_storeMessage cap mid ts c rl body md tbl :
  (0 < cap)%Z -> NoDup (map row_id tbl) -> mid ∉ map row_id tbl ->
  (forall r, r ∈ where_conversation c tbl -> ~ String.le ts (row_timestamp r)) ->
  (forall r, r ∈ where_conversation c tbl -> exists m, row_to_message JSON_parse r = Ok m) ->
  (forall m, md = Some m -> JSON_stringify m <> "" /\ JSON_parse (JSON_stringify m) = Some m) ->
  let hist := getConversationHistory JSON_parse cap false c
                (snd (storeMessage JSON_stringify cap false false mid ts c rl body md tbl)) in
  last hist = Some (mk_message mid c rl body ts md) /\
  length hist = Nat.min (Z.to_nat cap) (length (where_conversation c tbl) + 1).
Proof. apply history_after_store. Qed.
End LastMessage.

Lemma getConversationHistory_after_storeMessage_witness :
  last (getConversationHistory toy_parse 2 false "c1"
          (snd (storeMessage toy_stringify 2 false false "m3" ts3 "c1" User "c" None
                  [user_row "m1" ts1 "a" None; user_row "m2" ts2 "b" (Some "{}")]))) =
    Some (mk_message "m3" "c1" User "c" ts3 None).
Proof.
  apply (getConversationHistory_after_storeMessage unit toy_stringify toy_parse 2 "m3" ts3 "c1"
           User "c" None [user_row "m1" ts1 "a" None; user_row "m2" ts2 "b" (Some "{}")]).
  - lia.
  - apply (bool_decide_unpack _). vm_compute. reflexivity.
  - apply (bool_decide_unpack _). vm_compute. reflexivity.
  - intros r Hr. apply list_elem_of_In in Hr. vm_compute in Hr.
    destruct Hr as [<- | [<- | []]]; apply (bool_decide_unpack _); vm_compute; reflexivity.
  - intros r Hr. apply list_elem_of_In in Hr. vm_compute in Hr.
    destruct Hr as [<- | [<- | []]]; eexists; vm_compute; reflexivity.
  - intros m Hm. discriminate Hm.
Defined.
End DBX.

Module HelperProofs.
Import Helpers.
Import Stdlib.Strings.Ascii.


Lemma trim_start_lead s a t : trim_start s = String a t -> is_js_space a = false.
Proof.
  induction s as [| b s IH]; cbn; [discriminate |].
  destruct (is_js_space b) eqn:Hb; [exact IH | by intros [= <- _]].
Qed.

Lemma trim_end_lead a s :
  is_js_space a = false -> trim_end (String a s) = String a (trim_end s).
Proof. intros Ha. cbn. by rewrite Ha. Qed.

Lemma trim_start_of_trim_end s :
  (forall a t, s = String a t -> is_js_space a = false) -> trim_start (trim_end s) = trim_end s.
Proof.
  destruct s as [| a t]; intros Hs; [reflexivity |].
  rewrite trim_end_lead by (by apply (Hs a t)). cbn. by rewrite (Hs a t eq_refl).
Qed.

Lemma trim_start_no_lead s :
  (forall a t, s = String a t -> is_js_space a = false) -> trim_start s = s.
Proof. destruct s as [| a t]; intros Hs; [reflexivity |]. cbn. by rewrite (Hs a t eq_refl). Qed.

Lemma trim_end_idem s : trim_end (trim_end s) = trim_end s.
Proof.
  induction s as [| a s IH]; [reflexivity |]. cbn.
  destruct (is_js_space a && String.eqb (trim_end s) "") eqn:Hc; [reflexivity |].
  cbn. rewrite IH, Hc. reflexivity.
Qed.

Lemma trim_idem s : trim (trim s) = trim s.
Proof.
  unfold trim. rewrite trim_start_of_trim_end; [apply trim_end_idem |].
  intros a t Ht. exact (trim_start_lead s a t Ht).
Qed.

Lemma chars_trim_start s c : c ∈ chars (trim_start s) -> c ∈ chars s.
Proof.
  induction s as [| a s IH]; cbn; [done |].
  destruct (is_js_space a); [intros H; right; by apply IH | done].
Qed.

Lemma chars_trim_end s c : c ∈ chars (trim_end s) -> c ∈ chars s.
Proof.
  induction s as [| a s IH]; cbn; [done |].
  destruct (is_js_space a && String.eqb (trim_end s) ""); cbn;
    [intros H; by apply not_elem_of_nil in H |].
  intros H. apply elem_of_cons in H as [-> | H]; [left | right; by apply IH].
Qed.

Lemma chars_slice0 n s c : c ∈ chars (slice0 n s) -> c ∈ chars s.
Proof.
  unfold slice0. revert n. induction s as [| a s IH]; intros [| n]; cbn; try done.
  - intros H. by apply not_elem_of_nil in H.
  - intros H. apply elem_of_cons in H as [-> | H]; [left | right; by apply (IH n)].
Qed.

Lemma chars_remove_chars p s c :
  c ∈ chars (remove_chars p s) -> c ∈ chars s /\ p c = false.
Proof.
  induction s as [| a s IH]; cbn; [intros H; by apply not_elem_of_nil in H |].
  destruct (p a) eqn:Hp.
  - intros H. destruct (IH H). split; [by right | done].
  - intros H. apply elem_of_cons in H as [-> | H]; [split; [left | done] |].
    destruct (IH H). split; [by right | done].
Qed.

Lemma remove_chars_none p s :
  (forall c, c ∈ chars s -> p c = false) -> remove_chars p s = s.
Proof.
  induction s as [| a s IH]; intros Hs; cbn; [done |].
  rewrite (Hs a ltac:(left)). f_equal. apply IH. intros c Hc. apply Hs. by right.
Qed.

Lemma length_slice0 n s : (String.length (slice0 n s) <= n)%nat.
Proof.
  unfold slice0. revert n. induction s as [| a s IH]; intros [| n]; cbn; try lia.
  specialize (IH n). lia.
Qed.

Lemma length_trim_end s : (String.length (trim_end s) <= String.length s)%nat.
Proof.
  induction s as [| a s IH]; cbn; [lia |].
  destruct (is_js_space a && String.eqb (trim_end s) ""); cbn; lia.
Qed.

Lemma slice0_short n s : (String.length s <= n)%nat -> slice0 n s = s.
Proof.
  unfold slice0. revert n. induction s as [| a s IH]; intros [| n] Hn; cbn in *;
    try reflexivity; try lia.
  f_equal. apply IH. lia.
Qed.

Lemma slice0_lead n s a t : slice0 n s = String a t -> exists t', s = String a t'.
Proof.
  unfold slice0. destruct n as [| n], s as [| b s]; cbn; try discriminate.
  intros [= <- _]. by eexists.
Qed.

Lemma trim_lead s a t : trim s = String a t -> is_js_space a = false.
Proof.
  unfold trim. destruct (trim_start s) as [| b u] eqn:Hts; [discriminate |].
  assert (Hb : is_js_space b = false) by exact (trim_start_lead s b u Hts).
  rewrite trim_end_lead by exact Hb. intros [= <- _]. exact Hb.
Qed.

(** [sanitizeString] leaves no angle bracket and no quote, at most
    10000 code units and no leading white space. *)
Theorem sanitizeString_output s :
  (forall c, c ∈ chars (sanitizeString s) -> is_angle_bracket c = false /\ is_quote c = false) /\
  (String.length (sanitizeString s) <= 10000)%nat /\
  (forall a t, sanitizeString s = String a t -> is_js_space a = false).
Proof.
  unfold sanitizeString. split; [| split].
  - intros c Hc. apply chars_slice0 in Hc. unfold trim in Hc.
    apply chars_trim_end, chars_trim_start in Hc.
    apply chars_remove_chars in Hc as [Hc Hq]. apply chars_remove_chars in Hc as [_ Ha].
    split; assumption.
  - apply length_slice0.
  - intros a t Hs. apply slice0_lead in Hs as [t' Ht]. exact (trim_lead _ _ _ Ht).
Qed.

(** Sanitizing twice only drops trailing white space left by the
    10000-unit cut; when no cut happened, sanitizing is idempotent. *)
Theorem sanitizeString_twice s :
  sanitizeString (sanitizeString s) = trim_end (sanitizeString s) /\
  ((String.length (trim (remove_chars is_quote (remove_chars is_angle_bracket s))) <= 10000)%nat ->
   sanitizeString (sanitizeString s) = sanitizeString s).
Proof.
  destruct (sanitizeString_output s) as (Hc & Hlen & Hlead).
  assert (Htwice : sanitizeString (sanitizeString s) = trim_end (sanitizeString s)).
  { unfold sanitizeString at 1.
    rewrite (remove_chars_none is_angle_bracket) by (intros c Hin; apply (Hc c Hin)).
    rewrite (remove_chars_none is_quote) by (intros c Hin; apply (Hc c Hin)).
    unfold trim. rewrite (trim_start_no_lead (sanitizeString s)) by exact Hlead.
    apply slice0_short. pose proof (length_trim_end (sanitizeString s)). lia. }
  split; [exact Htwice |].
  intros Hshort. rewrite Htwice. unfold sanitizeString.
  rewrite slice0_short by exact Hshort. unfold trim. apply trim_end_idem.
Qed.

Lemma sanitizeString_twice_witness :
  sanitizeString (sanitizeString "  <b>'hi'</b> ") = "bhi/b" /\
  sanitizeString (sanitizeString "  <b>'hi'</b> ") = sanitizeString "  <b>'hi'</b> ".
Proof.
  split; [vm_compute; reflexivity |].
  apply (proj2 (sanitizeString_twice "  <b>'hi'</b> ")). vm_compute. lia.
Defined.

Lemma js_or_nonempty a b : b <> "" -> js_or a b <> "".
Proof.
  destruct a as [s |]; cbn; [| done].
  destruct (String.eqb s "") eqn:He; [done |]. apply String.eqb_neq in He. done.
Qed.

Lemma user_ip_distinct u ip : String.append "user:" u <> String.append "ip:" ip.
Proof. discriminate. Qed.

(** Rate-limit identifiers: a request with a non-empty [userId] is
    counted under that user alone (no other request with a different or
    missing [userId] shares its identifier), and an anonymous request is
    counted under ["ip:"] followed by a non-empty address. *)
Theorem getClientIdentifier_namespaces u u' (v : option string) cf xff cf' xff' :
  (u <> "" ->
   getClientIdentifier (Some u) cf xff = getClientIdentifier u' cf' xff' -> u' = Some u) /\
  ((v = None \/ v = Some "") ->
   exists ip, ip <> "" /\ getClientIdentifier v cf xff = String.append "ip:" ip).
Proof.
  split.
  - intros Hu. unfold getClientIdentifier.
    destruct (String.eqb u "") eqn:He; [by apply String.eqb_eq in He |].
    destruct u' as [w |].
    + destruct (String.eqb w "") eqn:Hw; [intros H; by apply user_ip_distinct in H |].
      intros H. apply (inj (String.append "user:")) in H. by subst.
    + intros H. by apply user_ip_distinct in H.
  - intros Hv. unfold getClientIdentifier.
    exists (js_or cf (js_or (option_map first_field xff) "unknown")).
    split; [apply js_or_nonempty, js_or_nonempty; discriminate |].
    destruct Hv as [-> | ->]; reflexivity.
Qed.

Lemma getClientIdentifier_namespaces_witness :
  getClientIdentifier (Some "alice") None None <> getClientIdentifier (Some "bob") None None /\
  exists ip, ip <> "" /\ getClientIdentifier (Some "") (Some "") (Some "10.0.0.1, 10.0.0.2") = String.append "ip:" ip.
Proof.
  split.
  - intros H.
    assert (Hne : "alice" <> "") by (intros He; discriminate He).
    pose proof (proj1 (getClientIdentifier_namespaces "alice" (Some "bob") None None None None None) Hne H) as Hx.
    discriminate Hx.
  - exact (proj2 (getClientIdentifier_namespaces "" None (Some "") (Some "") (Some "10.0.0.1, 10.0.0.2") None None)
      (or_intror eq_refl)).
Defined.

Lemma split_comma_no_comma s p c :
  p ∈ split_comma s -> c ∈ chars p -> Ascii.eqb c ","%char = false.
Proof.
  revert p. induction s as [| a s IH]; intros p; cbn.
  - intros Hp. apply list_elem_of_singleton in Hp as ->. cbn. intros H. by apply not_elem_of_nil in H.
  - destruct (Ascii.eqb a ","%char) eqn:Ha.
    + intros Hp. apply elem_of_cons in Hp as [-> | Hp]; [| by apply IH].
      cbn. intros H. by apply not_elem_of_nil in H.
    + destruct (split_comma s) as [| q qs] eqn:Hs.
      * intros Hp. apply list_elem_of_singleton in Hp as ->. cbn.
        intros H. apply elem_of_cons in H as [-> | H]; [exact Ha | by apply not_elem_of_nil in H].
      * intros Hp. apply elem_of_cons in Hp as [-> | Hp].
        -- cbn. intros H. apply elem_of_cons in H as [-> | H]; [exact Ha |].
           apply (IH q); [left | exact H].
        -- apply IH. by right.
Qed.

(** [extractKeywords] returns at most ten keywords, each non-empty,
    already trimmed and free of commas, whatever the model answered
    (an error or a missing answer gives none). *)
Theorem extractKeywords_output r :
  (length (extractKeywords r) <= 10)%nat /\
  (forall k, k ∈ extractKeywords r ->
   k <> "" /\ trim k = k /\ forall c, c ∈ chars k -> Ascii.eqb c ","%char = false).
Proof.
  destruct r as [[s |] | e]; cbn; try (split; [lia | intros k Hk; by apply not_elem_of_nil in Hk]).
  destruct (String.eqb s ""); [split; [cbn; lia | intros k Hk; by apply not_elem_of_nil in Hk] |].
  split; [rewrite length_take; lia |].
  intros k Hk. apply elem_of_take in Hk as [i [Hi _]].
  apply list_elem_of_lookup_2, list_elem_of_filter in Hi as [Hne Hin].
  apply list_elem_of_In, in_map_iff in Hin as [p [<- Hp]]. apply list_elem_of_In in Hp.
  split; [exact Hne |]. split; [apply trim_idem |].
  intros c Hc. unfold trim in Hc. apply chars_trim_end, chars_trim_start in Hc.
  exact (split_comma_no_comma s p c Hp Hc).
Qed.
End HelperProofs.

Module RequestProofs.
Import Requests.

Lemma message_check_passes (p : option js_value) :
  (if negb (String.eqb (typeof_prop p) "string") || trimmed_empty p
   then ["Message is required and must be a non-empty string"] else []) = [] <->
  exists m, p = Some (JString m) /\ Helpers.trim m <> "".
Proof.
  destruct p as [[| b | t | s | items | fs] |]; cbn;
    try (split; [intros H; discriminate H | intros [m [H _]]; discriminate H]).
  destruct (Helpers.trim s) eqn:Ht; cbn.
  - split; [intros H; discriminate H | intros [m [[= <-] Hm]]; congruence].
  - split; [intros _; exists s; split; [reflexivity | rewrite Ht; discriminate] | done].
Qed.

Lemma optional_string_check_passes (p : option js_value) (e : string) :
  (if bool_decide (p <> None) && negb (String.eqb (typeof_prop p) "string")
   then [e] else []) = [] <->
  forall v, p = Some v -> exists s, v = JString s.
Proof.
  destruct p as [v |].
  - rewrite bool_decide_true by done.
    destruct v as [| b | t | s | items | fs]; cbn;
      try (split; [intros H; discriminate H | intros H; destruct (H _ eq_refl) as [s' Hs']; discriminate Hs']).
    split; [intros _ v [= <-]; by eexists | done].
  - rewrite bool_decide_false by (intros H; by apply H). cbn.
    split; [intros _ v Hv; discriminate Hv | done].
Qed.

Lemma metadata_check_passes (p : option js_value) (e : string) :
  (if bool_decide (p <> None) &&
      (negb (String.eqb (typeof_prop p) "object") ||
       match p with Some v => is_null v | None => false end)
   then [e] else []) = [] <->
  forall v, p = Some v -> (exists items, v = JArray items) \/ (exists fs, v = JObject fs).
Proof.
  destruct p as [v |].
  - rewrite bool_decide_true by done.
    destruct v as [| b | t | s | items | fs]; cbn;
      try (split; [intros H; discriminate H |
                   intros H; destruct (H _ eq_refl) as [[? Hv] | [? Hv]]; discriminate Hv]).
    + split; [intros _ v [= <-]; left; by eexists | done].
    + split; [intros _ v [= <-]; right; by eexists | done].
  - rewrite bool_decide_false by (intros H; by apply H). cbn.
    split; [intros _ v Hv; discriminate Hv | done].
Qed.

Lemma app4_nil {A} (l1 l2 l3 l4 : list A) :
  l1 ++ l2 ++ l3 ++ l4 = [] <-> l1 = [] /\ l2 = [] /\ l3 = [] /\ l4 = [].
Proof.
  split.
  - intros H. repeat (apply app_eq_nil in H as [? H]); subst; auto.
  - intros (-> & -> & -> & ->). reflexivity.
Qed.

(** [validateAgentRequest] accepts exactly the JSON objects whose
    [message] is a string that is not blank after trimming, whose
    [conversationId] and [userId] are strings when present, and whose
    [metadata] is, when present, an object or an array: [typeof] of an
    array is ["object"] too. *)
Theorem validateAgentRequest_accepts body :
  isValid (validateAgentRequest body) = true <->
  (exists fields, body = JObject fields) /\
  (exists m, get_property body "message" = Some (JString m) /\ Helpers.trim m <> "") /\
  (forall v, get_property body "conversationId" = Some v -> exists s, v = JString s) /\
  (forall v, get_property body "userId" = Some v -> exists s, v = JString s) /\
  (forall v, get_property body "metadata" = Some v ->
     (exists items, v = JArray items) \/ (exists fs, v = JObject fs)).
Proof.
  destruct body as [| b | t | s | items | fields]; cbn;
    try (split; [intros H; discriminate H | intros [[fs Hfs] _]; discriminate Hfs]).
  rewrite Nat.eqb_eq, length_zero_iff_nil, !app4_nil, message_check_passes,
    !optional_string_check_passes, metadata_check_passes.
  split; [intros H; split; [by eexists | exact H] | intros [_ H]; exact H].
Qed.

End RequestProofs.

Module AIProofs.
Import Conversations AI.

Lemma generateResponse_ok {json} ai m (hist : list (ConversationMessage json)) ctx r :
  generateResponse ai m hist ctx = Ok r ->
  exists raw, raw <> "" /\ ai (buildMessagesArray m hist ctx) = Ok (Some raw) /\
              r = Helpers.trim raw.
Proof.
  unfold generateResponse.
  destruct (ai (buildMessagesArray m hist ctx)) as [[raw |] | e]; try discriminate.
  destruct (String.eqb raw "") eqn:He; [discriminate |].
  intros [= <-]. apply String.eqb_neq in He. by exists raw.
Qed.

(** [generateResponse] answers with the trimmed text of a non-empty
    model answer to the prompt [buildMessagesArray] built, so its answer
    is already trimmed; the emptiness test comes before the trim, so an
    answer of white space only yields the empty string.  Otherwise (the
    model throws, returns no text or returns the empty text) it throws
    exactly ["Failed to generate AI response"]. *)
Theorem generateResponse_output {json} ai m (hist : list (ConversationMessage json)) ctx :
  (forall r, generateResponse ai m hist ctx = Ok r ->
   (exists raw, raw <> "" /\ ai (buildMessagesArray m hist ctx) = Ok (Some raw) /\
                r = Helpers.trim raw) /\
   Helpers.trim r = r) /\
  (forall e, generateResponse ai m hist ctx = Throw e ->
   e = "Failed to generate AI response" /\
   forall raw, ai (buildMessagesArray m hist ctx) = Ok (Some raw) -> raw = "").
Proof.
  split.
  - intros r H. destruct (generateResponse_ok ai m hist ctx r H) as [raw (Hne & Hai & ->)].
    split; [by exists raw | apply HelperProofs.trim_idem].
  - intros e. unfold generateResponse.
    destruct (ai (buildMessagesArray m hist ctx)) as [[raw |] | e'].
    + destruct (String.eqb raw "") eqn:He; [| discriminate].
      intros [= <-]. split; [reflexivity |]. intros raw' [= <-]. by apply String.eqb_eq.
    + intros [= <-]. split; [reflexivity | discriminate].
    + intros [= <-]. split; [reflexivity | discriminate].
Qed.

Lemma generateResponse_output_witness :
  generateResponse (fun _ => Ok (Some "   ")) "hi" (@nil (ConversationMessage unit)) "" = Ok "" /\
  Helpers.trim "" = "" /\
  generateResponse (fun _ => Throw "network error") "hi" (@nil (ConversationMessage unit)) "" =
    Throw "Failed to generate AI response".
Proof.
  assert (H : generateResponse (fun _ => Ok (Some "   ")) "hi" (@nil (ConversationMessage unit)) ""
              = Ok "") by (vm_compute; reflexivity).
  split; [exact H |]. split; [exact (proj2 (proj1 (generateResponse_output _ _ _ _) _ H)) |].
  destruct (generateResponse (fun _ => Throw "network error") "hi"
              (@nil (ConversationMessage unit)) "") as [r | e] eqn:E.
  - vm_compute in E. discriminate E.
  - rewrite (proj1 (proj2 (generateResponse_output _ _ _ _) e E)). reflexivity.
Defined.

Lemma buildMessagesArray_ends {json} m (pre : list (ConversationMessage json)) x ctx :
  msg_role x = User ->
  exists P, buildMessagesArray m (pre ++ [x]) ctx =
            P ++ [mk_chat "user" (content x); mk_chat "user" m].
Proof.
  intros Hx. unfold buildMessagesArray. rewrite map_app. cbn [map].
  rewrite Hx. eexists.
  rewrite <- (app_assoc _ [_] [_]), app_assoc. reflexivity.
Qed.

End AIProofs.

Module AgentProofs.
Import RateLimit Conversations Requests AI Agent.
Import RateLimitProofs ConversationProofs RLX DBX AIProofs.

Lemma checkRateLimit_blocked_no_write limit f now id kv info kv1 :
  checkRateLimit limit f now id kv = (info, kv1) -> blocked info = true -> kv1 = kv.
Proof.
  intros H Hb.
  destruct (checkRateLimit_cases limit f now id kv) as [(c & _ & _ & _ & E) | [(c & _ & _ & E) | E]];
    rewrite E in H; injection H as <- <-; try discriminate Hb; reflexivity.
Qed.

Lemma last_n_last {A} n (l : list A) x :
  (0 < n)%nat -> last l = Some x -> exists pre, last_n n l = pre ++ [x].
Proof.
  intros Hn Hl. apply last_Some in Hl as [l' ->]. unfold last_n.
  rewrite length_app. cbn [length]. rewrite drop_app_le by lia. by eexists.
Qed.

Section Handler.

Variable JSON_stringify : js_value -> string.
Variable JSON_parse : string -> option js_value.
Variable ai_run : list chat_message -> result (option string).
Variable limitPerMinute maxHistoryLength : Z.

Local Abbreviation handle :=
  (handleAgentRequest JSON_stringify JSON_parse ai_run limitPerMinute maxHistoryLength).

Lemma store_other s c rl body md tbl c' :
  c' <> c ->
  where_conversation c' (snd (store JSON_stringify maxHistoryLength s c rl body md tbl)) =
  where_conversation c' tbl.
Proof. intros Hne. unfold store. by apply store_other_conversations. Qed.

Lemma store_ok s c rl body md tbl m tbl1 :
  store JSON_stringify maxHistoryLength s c rl body md tbl = (Ok m, tbl1) ->
  insert_fails s = false /\ new_id s ∉ map row_id tbl.
Proof.
  unfold store, storeMessage, sql_insert.
  destruct (insert_fails s); [discriminate |].
  case_bool_decide as Hin; [discriminate |]. done.
Qed.

(** A malformed body is answered with status 500, not 400; a request
    refused with status 400 or 429 changes neither the KV store nor the
    table. *)
Theorem handleAgentRequest_rejections body cf xff io kv tbl o kv' tbl' :
  handle body cf xff io kv tbl = (o, kv', tbl') ->
  ((exists e, body = Throw e) -> o = InternalError /\ kv' = kv /\ tbl' = tbl) /\
  (agent_status o = 400%Z \/ agent_status o = 429%Z -> kv' = kv /\ tbl' = tbl).
Proof.
  intros Hh. unfold handleAgentRequest in Hh.
  destruct body as [b | e]; [| injection Hh as <- <- <-; split; [done | intros [H | H]; discriminate H]].
  split; [intros [e He]; discriminate He |].
  destruct (negb (isValid (validateAgentRequest b))); [by injection Hh as <- <- <- |].
  destruct (checkRateLimit _ _ _ _ kv) as [info kv1] eqn:Hrl.
  destruct (blocked info) eqn:Hb.
  { injection Hh as <- <- <-. split; [| reflexivity].
    exact (checkRateLimit_blocked_no_write _ _ _ _ _ _ _ Hrl Hb). }
  destruct (io_init_fails io); [injection Hh as <- <- <-; intros [H | H]; discriminate H |].
  destruct (store _ _ _ _ _ _ _ tbl) as [[um | e] tbl1];
    [| injection Hh as <- <- <-; intros [H | H]; discriminate H].
  destruct (generateResponse _ _ _ _) as [ans | e];
    [| injection Hh as <- <- <-; intros [H | H]; discriminate H].
  destruct (store _ _ _ _ _ _ _ tbl1) as [[am | e] tbl2];
    injection Hh as <- <- <-; intros [H | H]; discriminate H.
Qed.

(** The handler writes the KV store only through the rate-limit check
    of the request's client, and changes only the rows of the request's
    conversation. *)
Theorem handleAgentRequest_footprint body cf xff io kv tbl o kv' tbl' :
  handle body cf xff io kv tbl = (o, kv', tbl') ->
  (kv' = kv \/
   exists b, body = Ok b /\
     kv' = snd (checkRateLimit limitPerMinute (io_kv_faults io) (io_now io)
                  (Helpers.getClientIdentifier (string_field b "userId") cf xff) kv)) /\
  (forall c',
     (forall b, body = Ok b ->
        c' <> Helpers.js_or (string_field b "conversationId") (io_new_conversation_id io)) ->
     where_conversation c' tbl' = where_conversation c' tbl).
Proof.
  intros Hh. unfold handleAgentRequest in Hh.
  destruct body as [b | e]; [| injection Hh as <- <- <-; split; [by left | done]].
  destruct (negb (isValid (validateAgentRequest b))); [injection Hh as <- <- <-; split; [by left | done] |].
  destruct (checkRateLimit _ _ _ _ kv) as [info kv1] eqn:Hrl.
  assert (Hkv : kv1 = snd (checkRateLimit limitPerMinute (io_kv_faults io) (io_now io)
                  (Helpers.getClientIdentifier (string_field b "userId") cf xff) kv))
    by (rewrite Hrl; reflexivity).
  set (cid := Helpers.js_or (string_field b "conversationId") (io_new_conversation_id io)) in Hh.
  destruct (blocked info); [injection Hh as <- <- <-; split; [right; by exists b | done] |].
  destruct (io_init_fails io); [injection Hh as <- <- <-; split; [right; by exists b | done] |].
  destruct (store _ _ (io_user_store io) cid User _ _ tbl) as [r1 tbl1] eqn:Hs1.
  assert (Hw1 : forall c', c' <> cid -> where_conversation c' tbl1 = where_conversation c' tbl).
  { intros c' Hne. rewrite <- (store_other (io_user_store io) cid User
      (Helpers.sanitizeString (default "" (string_field b "message")))
      (get_property b "metadata") tbl c' Hne), Hs1. reflexivity. }
  destruct r1 as [um | e]; [| injection Hh as <- <- <-; split; [right; by exists b |]].
  2: { intros c' Hc'. apply Hw1, (Hc' b eq_refl). }
  destruct (generateResponse _ _ _ _) as [ans | e];
    [| injection Hh as <- <- <-; split; [right; by exists b | intros c' Hc'; apply Hw1, (Hc' b eq_refl)]].
  destruct (store _ _ (io_assistant_store io) cid Assistant ans None tbl1) as [r2 tbl2] eqn:Hs2.
  assert (Hw2 : forall c', c' <> cid -> where_conversation c' tbl2 = where_conversation c' tbl).
  { intros c' Hne. rewrite <- (Hw1 c' Hne), <- (store_other (io_assistant_store io) cid Assistant
      ans None tbl1 c' Hne), Hs2. reflexivity. }
  destruct r2 as [am | e]; injection Hh as <- <- <-;
    (split; [right; by exists b | intros c' Hc'; apply Hw2, (Hc' b eq_refl)]).
Qed.

(** Without KV faults, a valid request whose client has [c] requests
    counted in the current window, [c] below the limit, counts against
    the quota whatever happens next: the KV store then holds [c + 1], and
    the response is 200 with [limit - c - 1] remaining, or 500, never
    429. *)
Theorem handleAgentRequest_consumes_quota b cf xff io kv tbl o kv' tbl' c :
  handle (Ok b) cf xff io kv tbl = (o, kv', tbl') ->
  isValid (validateAgentRequest b) = true ->
  io_kv_faults io = no_kv_faults ->
  window_count (io_now io)
    (rate_limit_key (Helpers.getClientIdentifier (string_field b "userId") cf xff)) kv c ->
  (c < limitPerMinute)%Z ->
  window_count (io_now io)
    (rate_limit_key (Helpers.getClientIdentifier (string_field b "userId") cf xff)) kv' (c + 1) /\
  (o = InternalError \/
   exists r cid hc n, o = Answered r cid hc n (limitPerMinute - c - 1)
                                   (window_start (io_now io) + 60000)).
Proof.
  intros Hh Hv Hf Hwc Hlt. unfold handleAgentRequest in Hh. rewrite Hv in Hh. cbn [negb] in Hh.
  set (id := Helpers.getClientIdentifier (string_field b "userId") cf xff) in *.
  rewrite Hf in Hh.
  rewrite (checkRateLimit_admitted limitPerMinute no_kv_faults (io_now io) id kv c
             (read_count_window_count no_kv_faults _ _ _ _ eq_refl Hwc) Hlt eq_refl) in Hh.
  cbn [blocked remaining resetTime] in Hh.
  assert (Hwin : window_count (io_now io) (rate_limit_key id)
    (<[rate_limit_key id := mk_kv_entry (CounterRec (c + 1) (window_start (io_now io)))
                               (io_now io + 120 * 1000)]> kv) (c + 1)).
  { eapply wc_current; [apply lookup_insert_eq | cbn; lia | reflexivity]. }
  destruct (io_init_fails io); [injection Hh as <- <- <-; split; [exact Hwin | by left] |].
  destruct (store _ _ _ _ _ _ _ tbl) as [[um | e] tbl1];
    [| injection Hh as <- <- <-; split; [exact Hwin | by left]].
  destruct (generateResponse _ _ _ _) as [ans | e];
    [| injection Hh as <- <- <-; split; [exact Hwin | by left]].
  destruct (store _ _ _ _ _ _ _ tbl1) as [[am | e] tbl2];
    injection Hh as <- <- <-; (split; [exact Hwin |]); [right; by do 4 eexists | by left].
Qed.

(** On a 200 where the user message's cleanup and the history [SELECT]
    succeed, the stored message is newer than the conversation's rows,
    those rows parse and the request's metadata round-trips through
    JSON, the model was asked with a prompt whose last two entries both
    carry the sanitized message: the message is stored before the
    history is read, so the history already ends with it.  The reported
    [messageCount] is the number of messages the conversation holds
    after the user message was stored, plus one: with a full
    conversation it exceeds [maxHistoryLength]. *)
Theorem handleAgentRequest_prompt_repeats_message b cf xff io kv tbl r cid hc n rem reset kv' tbl' :
  handle (Ok b) cf xff io kv tbl = (Answered r cid hc n rem reset, kv', tbl') ->
  (0 < maxHistoryLength)%Z -> NoDup (map row_id tbl) ->
  cleanup_fails (io_user_store io) = false -> io_select_fails io = false ->
  (forall row, row ∈ where_conversation cid tbl ->
     ~ String.le (new_ts (io_user_store io)) (row_timestamp row)) ->
  (forall row, row ∈ where_conversation cid tbl -> exists m, row_to_message JSON_parse row = Ok m) ->
  (forall v, get_property b "metadata" = Some v ->
     JSON_stringify v <> "" /\ JSON_parse (JSON_stringify v) = Some v) ->
  let m := Helpers.sanitizeString (default "" (string_field b "message")) in
  let hist := getConversationHistory JSON_parse maxHistoryLength false cid
                (snd (store JSON_stringify maxHistoryLength (io_user_store io) cid User m
                        (get_property b "metadata") tbl)) in
  let prompt := buildMessagesArray m (last_n 10 hist) (io_relevant_context io) in
  (exists raw, ai_run prompt = Ok (Some raw) /\ r = Helpers.trim raw) /\
  (exists pre, prompt = pre ++ [mk_chat "user" m; mk_chat "user" m]) /\
  n = (Nat.min (Z.to_nat maxHistoryLength) (length (where_conversation cid tbl) + 1) + 1)%nat.
Proof.
  intros Hh Hcap Hnd Hcl Hsel Hts Hparse Hmd. cbv zeta.
  unfold handleAgentRequest in Hh. cbv zeta in Hh.
  set (m := Helpers.sanitizeString (default "" (string_field b "message"))) in *.
  destruct (negb (isValid (validateAgentRequest b))); [discriminate Hh |].
  destruct (checkRateLimit _ _ _ _ kv) as [info kv1].
  destruct (blocked info); [discriminate Hh |].
  destruct (io_init_fails io); [discriminate Hh |].
  destruct (store _ _ (io_user_store io) _ User m _ tbl) as [[um | e] tbl1] eqn:Hs1;
    [| discriminate Hh].
  destruct (generateResponse _ _ _ _) as [ans | e] eqn:Hg; [| discriminate Hh].
  destruct (store _ _ (io_assistant_store io) _ Assistant ans None tbl1) as [[am | e] tbl2];
    [| discriminate Hh].
  injection Hh as <- <- _ <- _ _ _ _.
  destruct (store_ok _ _ _ _ _ _ _ _ Hs1) as [Hins Hfresh].
  rewrite Hs1. cbn [snd].
  rewrite Hsel in Hg.
  destruct (generateResponse_ok _ _ _ _ _ Hg) as [raw (_ & Hai & ->)].
  assert (Hstore : store JSON_stringify maxHistoryLength (io_user_store io)
                     (Helpers.js_or (string_field b "conversationId") (io_new_conversation_id io))
                     User m (get_property b "metadata") tbl =
                   storeMessage JSON_stringify maxHistoryLength false false
                     (new_id (io_user_store io)) (new_ts (io_user_store io))
                     (Helpers.js_or (string_field b "conversationId") (io_new_conversation_id io))
                     User m (get_property b "metadata") tbl)
    by (unfold store; by rewrite Hins, Hcl).
  destruct (history_after_store js_value JSON_stringify JSON_parse maxHistoryLength
              (new_id (io_user_store io)) (new_ts (io_user_store io))
              (Helpers.js_or (string_field b "conversationId") (io_new_conversation_id io))
              User m (get_property b "metadata") tbl Hcap Hnd Hfresh Hts Hparse Hmd)
    as [Hlast Hlen].
  rewrite <- Hstore, Hs1 in Hlast, Hlen. cbn [snd] in Hlast, Hlen.
  split; [by exists raw |]. split.
  - destruct (last_n_last 10 _ _ ltac:(lia) Hlast) as [pre Hpre].
    rewrite Hpre.
    destruct (buildMessagesArray_ends m pre
                (mk_message (new_id (io_user_store io)) (Helpers.js_or (string_field b "conversationId")
                   (io_new_conversation_id io)) User m (new_ts (io_user_store io))
                   (get_property b "metadata")) (io_relevant_context io) eq_refl) as [P HP].
    exists P. exact HP.
  - rewrite Hsel, Hlen. reflexivity.
Qed.

End Handler.

Lemma handleAgentRequest_rejections_witness :
  let '(o, kv', tbl') :=
    handleAgentRequest (fun _ => "{}") (fun _ => None) (fun _ => Ok (Some "ok")) 2 50
      (Ok AppFixtures.alice_body) None None AppFixtures.io_ok AppFixtures.kv_alice_two [] in
  agent_status o = 429%Z /\ kv' = AppFixtures.kv_alice_two /\ tbl' = [].
Proof.
  destruct (handleAgentRequest _ _ _ _ _ _ _ _ _ _ _) as [[o kv'] tbl'] eqn:E.
  assert (Hs : agent_status o = 429%Z).
  { assert (E' := E). vm_compute in E'. injection E' as Ho _ _. rewrite <- Ho. reflexivity. }
  split; [exact Hs |].
  apply (proj2 (handleAgentRequest_rejections _ _ _ _ _ _ _ _ _ _ _ _ _ _ E)). by right.
Defined.

Lemma handleAgentRequest_footprint_witness :
  let '(o, kv', tbl') :=
    handleAgentRequest (fun _ => "{}") (fun _ => None) (fun _ => Ok (Some "ok")) 50 50
      (Ok AppFixtures.alice_body) None None AppFixtures.io_ok AppFixtures.kv_alice_two [] in
  where_conversation "other" tbl' = [] /\ tbl' <> [].
Proof.
  destruct (handleAgentRequest _ _ _ _ _ _ _ _ _ _ _) as [[o kv'] tbl'] eqn:E.
  split.
  - apply (proj2 (handleAgentRequest_footprint _ _ _ _ _ _ _ _ _ _ _ _ _ _ E) "other").
    intros b Hb. injection Hb as <-. vm_compute. discriminate.
  - vm_compute in E. injection E as _ _ <-. discriminate.
Defined.

Lemma handleAgentRequest_consumes_quota_witness :
  let '(o, kv', tbl') :=
    handleAgentRequest (fun _ => "{}") (fun _ => None) (fun _ => Ok (Some "ok")) 3 50
      (Ok AppFixtures.alice_body) None None AppFixtures.io_ok AppFixtures.kv_alice_two [] in
  window_count 610000 (rate_limit_key "user:alice") kv' 3 /\
  (o = InternalError \/ exists r cid hc n, o = Answered r cid hc n 0 660000).
Proof.
  destruct (handleAgentRequest _ _ _ _ _ _ _ _ _ _ _) as [[o kv'] tbl'] eqn:E.
  exact (handleAgentRequest_consumes_quota _ _ _ _ _ _ _ _ _ _ _ _ _ _ 2 E
           ltac:(vm_compute; reflexivity) eq_refl
           ltac:(apply (wc_current _ _ _ (mk_kv_entry (CounterRec 2 600000) 720005));
                 [vm_compute; reflexivity | simpl; lia | vm_compute; reflexivity])
           ltac:(lia)).
Defined.

Lemma handleAgentRequest_prompt_repeats_message_witness :
  let '(o, kv', tbl') :=
    handleAgentRequest (fun _ => "{}") (fun _ => None) (fun _ => Ok (Some " ok ")) 2 2
      (Ok AppFixtures.alice_body) None None AppFixtures.io_ok ∅
      [Conversations.mk_row "r1" "conv-new" Conversations.User "x" Fixtures.ts1 None;
       Conversations.mk_row "r2" "conv-new" Conversations.Assistant "y" Fixtures.ts2 None] in
  match o with
  | Answered r _ _ n _ _ => r = "ok" /\ n = 3%nat
  | _ => False
  end.
Proof.
  destruct (handleAgentRequest _ _ _ _ _ _ _ _ _ _ _) as [[o kv'] tbl'] eqn:E.
  assert (E' := E). vm_compute in E'. injection E' as Ho _ _. rewrite <- Ho in E |- *.
  assert (Hw : where_conversation "conv-new"
      [Conversations.mk_row "r1" "conv-new" Conversations.User "x" Fixtures.ts1 None;
       Conversations.mk_row "r2" "conv-new" Conversations.Assistant "y" Fixtures.ts2 None] =
      [Conversations.mk_row "r1" "conv-new" Conversations.User "x" Fixtures.ts1 None;
       Conversations.mk_row "r2" "conv-new" Conversations.Assistant "y" Fixtures.ts2 None])
    by (vm_compute; reflexivity).
  destruct (handleAgentRequest_prompt_repeats_message _ _ _ _ _ _ _ _ _ _ _ _ _ _ _ _ _ _ _ E
              ltac:(lia) ltac:(apply (bool_decide_unpack _); vm_compute; reflexivity)
              eq_refl eq_refl
              ltac:(intros row Hrow; rewrite Hw in Hrow;
                    repeat (apply elem_of_cons in Hrow as [-> | Hrow]);
                    [intros Hle; vm_compute in Hle; destruct Hle
                    | intros Hle; vm_compute in Hle; destruct Hle
                    | by apply not_elem_of_nil in Hrow])
              ltac:(intros row Hrow; rewrite Hw in Hrow;
                    repeat (apply elem_of_cons in Hrow as [-> | Hrow]);
                    [eexists; reflexivity | eexists; reflexivity
                    | by apply not_elem_of_nil in Hrow])
              ltac:(intros v Hv; discriminate Hv))
    as [(raw & Hraw & Hr) [_ Hn]].
  injection Hraw as <-. split; [exact Hr | exact Hn].
Defined.

End AgentProofs.

Module RouterProofs.
Import RateLimit Conversations Requests AI Agent Router.

Section Fetch.

Variable JSON_stringify : js_value -> string.
Variable JSON_parse : string -> option js_value.
Variable ai_run : list chat_message -> result (option string).
Variable limitPerMinute maxHistoryLength : Z.

Local Abbreviation route :=
  (fetch JSON_stringify JSON_parse ai_run limitPerMinute maxHistoryLength).

(** Without a non-empty [CONTEXT7_API_KEY] every request, the CORS
    preflight and the health check included, is answered with status 500
    and changes nothing; with one, some request is not. *)
Theorem fetch_requires_context7_key key :
  construction_fails key = true <->
  (forall request io kv tbl, route key request io kv tbl = (UnhandledError, kv, tbl)).
Proof.
  split.
  - intros Hk request io kv tbl. unfold fetch. by rewrite Hk.
  - intros H. destruct (construction_fails key) eqn:Hk; [reflexivity |].
    specialize (H (mk_http_request "OPTIONS" "/" None (Throw "") None None)
                  (mk_request_io 0 no_kv_faults "" false (mk_store_call false false "" "") false ""
                     (mk_store_call false false "" "") false false) ∅ []).
    unfold fetch in H. rewrite Hk in H. discriminate H.
Qed.

Lemma fetch_405 key request io kv tbl allowed kv' tbl' :
  route key request io kv tbl = (MethodNotAllowed allowed, kv', tbl') ->
  construction_fails key = false /\ kv' = kv /\ tbl' = tbl /\
  ((path request = "/agent" /\ method request <> "POST" /\ allowed = ["POST"; "OPTIONS"]) \/
   (path request ∈ ["/health"; "/stats"; "/rate-limit"] /\ method request <> "GET" /\
    allowed = ["GET"; "OPTIONS"])) /\
  method request <> "OPTIONS".
Proof.
  unfold fetch. destruct (construction_fails key) eqn:Hk; [discriminate |].
  destruct (String.eqb (method request) "OPTIONS") eqn:Hopt; [discriminate |].
  apply String.eqb_neq in Hopt.
  destruct (String.eqb (path request) "/agent" && String.eqb (method request) "POST") eqn:Hpost.
  { destruct (handleAgentRequest _ _ _ _ _ _ _ _ _ _ _) as [[o kv1] tbl1]. discriminate. }
  destruct (String.eqb (path request) "/health" && String.eqb (method request) "GET");
    [discriminate |].
  destruct (String.eqb (path request) "/stats" && String.eqb (method request) "GET");
    [discriminate |].
  destruct (String.eqb (path request) "/rate-limit" && String.eqb (method request) "GET").
  { destruct (query_id request) as [q |]; [destruct (String.eqb q "") |]; discriminate. }
  destruct (String.eqb (path request) "/agent") eqn:Hag; cbn [andb negb] in Hpost |- *.
  - rewrite Hpost. intros [= <- <- <-]. apply String.eqb_eq in Hag.
    apply String.eqb_neq in Hpost. auto 10.
  - case_bool_decide as Hin; cbn [andb]; [| discriminate].
    destruct (String.eqb (method request) "GET") eqn:Hget; cbn; [discriminate |].
    intros [= <- <- <-]. apply String.eqb_neq in Hget. auto 10.
Qed.

Lemma not_in_two (x a b : string) : x <> a -> x <> b -> x ∉ [a; b].
Proof.
  intros Ha Hb Hin. apply elem_of_cons in Hin as [-> | Hin]; [done |].
  apply list_elem_of_singleton in Hin. done.
Qed.

(** A 405 response changes nothing, its [Allow] list does not contain
    the request's method, and each method it lists is served on the
    same path: none of them gives 404, 405 or the router's own 500
    ([UnhandledError]); the handler of [POST /agent] may still answer
    500. *)
Theorem fetch_method_not_allowed key request io kv tbl allowed kv' tbl' :
  fetch JSON_stringify JSON_parse ai_run limitPerMinute maxHistoryLength
    key request io kv tbl = (MethodNotAllowed allowed, kv', tbl') ->
  kv' = kv /\ tbl' = tbl /\ (method request ∉ allowed) /\
  (forall m, m ∈ allowed ->
     match fst (fst (fetch JSON_stringify JSON_parse ai_run limitPerMinute maxHistoryLength key
                       (mk_http_request m (path request) (query_id request) (body request)
                          (cf_connecting_ip request) (x_forwarded_for request))
                       io kv tbl)) with
     | NotFound | MethodNotAllowed _ | UnhandledError => False
     | _ => True
     end).
Proof.
  intros H. destruct (fetch_405 _ _ _ _ _ _ _ _ H) as (Hk & -> & -> & Hcase & Hopt).
  split; [done |]. split; [done |].
  destruct Hcase as [(Hp & Hm & ->) | (Hp & Hm & ->)];
    (split; [by apply not_in_two |]); intros m Hin; unfold fetch; rewrite Hk; cbn [method path];
    (apply elem_of_cons in Hin as [-> | Hin];
     [| apply list_elem_of_singleton in Hin as ->; cbn; done]).
  - rewrite Hp. cbn -[handleAgentRequest].
    by destruct (handleAgentRequest _ _ _ _ _ _ _ _ _ _ _) as [[o kv1] tbl1].
  - apply elem_of_cons in Hp as [Hp | Hp]; [rewrite Hp; cbn -[getConversationStats]; done |].
    apply elem_of_cons in Hp as [Hp | Hp]; [rewrite Hp; cbn -[getConversationStats]; done |].
    apply list_elem_of_singleton in Hp. rewrite Hp. cbn -[getRateLimitStatus].
    destruct (query_id request) as [q |]; [destruct (String.eqb q "") |]; done.
Qed.

(** Only a [POST /agent] request can change the KV store or the table:
    the preflight, the health check, the statistics, the rate-limit
    status, 404s and 405s read at most. *)
Theorem fetch_read_only key request io kv tbl o kv' tbl' :
  fetch JSON_stringify JSON_parse ai_run limitPerMinute maxHistoryLength
    key request io kv tbl = (o, kv', tbl') ->
  (path request <> "/agent" \/ method request <> "POST") ->
  kv' = kv /\ tbl' = tbl.
Proof.
  intros H Hnot. unfold fetch in H.
  destruct (construction_fails key); [by injection H as <- <- <- |].
  destruct (String.eqb (method request) "OPTIONS"); [by injection H as <- <- <- |].
  destruct (String.eqb (path request) "/agent" && String.eqb (method request) "POST") eqn:Hpost.
  { apply andb_true_iff in Hpost as [Hp Hm].
    apply String.eqb_eq in Hp, Hm. destruct Hnot; contradiction. }
  repeat match type of H with
  | context [if ?c then _ else _] => destruct c
  | context [match ?x with Some _ => _ | None => _ end] => destruct x
  end; by injection H as <- <- <-.
Qed.

End Fetch.

Lemma fetch_method_not_allowed_witness :
  let '(o, kv', tbl') :=
    fetch (fun _ => "{}") (fun _ => None) (fun _ => Ok (Some "ok")) 2 50 (Some "k")
      (AppFixtures.get_request "/agent" None) AppFixtures.io_ok ∅ [] in
  match o with
  | MethodNotAllowed allowed => ("GET" ∉ allowed) /\ ("POST" ∈ allowed)
  | _ => False
  end.
Proof.
  destruct (fetch _ _ _ _ _ _ _ _ _ _) as [[o kv'] tbl'] eqn:E.
  assert (E' := E). vm_compute in E'. injection E' as Ho _ _. rewrite <- Ho in E |- *.
  destruct (fetch_method_not_allowed _ _ _ _ _ _ _ _ _ _ _ _ _ E) as (_ & _ & Hnin & _).
  split; [exact Hnin | left].
Defined.

Lemma fetch_read_only_witness :
  let '(o, kv', tbl') :=
    fetch (fun _ => "{}") (fun _ => None) (fun _ => Ok (Some "ok")) 2 50 (Some "k")
      (AppFixtures.get_request "/rate-limit" (Some "user:alice")) AppFixtures.io_ok
      AppFixtures.kv_alice_two [] in
  kv' = AppFixtures.kv_alice_two /\ tbl' = [].
Proof.
  destruct (fetch _ _ _ _ _ _ _ _ _ _) as [[o kv'] tbl'] eqn:E.
  apply (fetch_read_only _ _ _ _ _ _ _ _ _ _ _ _ _ E). left. discriminate.
Defined.

End RouterProofs.
